(** * Candidate search pipeline: attribute extraction, hard filters,
      soft scoring, ranking and the filter session log.

    A shallow embedding of [utils.py], [filter_logger.py] and the filtering,
    scoring and ranking parts of [search_engine.py].

    Conventions of the embedding:
    - Python [str] is [string] restricted to ASCII; [str.lower] lowers
      [A-Z] only.
    - Python [int] is [Z].
    - Python dicts used as records (a candidate, the criteria of a job
      configuration) are records whose optional keys are [option] fields;
      dicts used as maps are [gmap]s or, where iteration order is visible,
      association lists.
    - The arithmetic of the scores is duck-typed in the source; it is written
      once over an interface [Number] and instantiated with the exact
      rationals [Q] (the instance all general theorems are about) and with
      binary64 floats (the instance the worked examples are also run on).
    - [datetime.now()] readings are explicit arguments. *)

From Stdlib Require Import ZArith QArith Ascii String List Sorting.Permutation
  Sorting.Sorted Lia Lqa Bool PrimFloat.
From stdpp Require Import base option list gmap strings fin_maps.

Import ListNotations.
Local Open Scope string_scope.
Local Open Scope list_scope.
Local Open Scope Z_scope.

(** ** Text: the fragment of Python's [str] the code uses *)

Module Text.

Definition is_upper (c : ascii) : bool :=
  let n := nat_of_ascii c in ((65 <=? n) && (n <=? 90))%nat.

Definition lower_char (c : ascii) : ascii :=
  if is_upper c then ascii_of_nat (nat_of_ascii c + 32) else c.

(** [s.lower()] *)
Fixpoint lower (s : string) : string :=
  match s with
  | EmptyString => EmptyString
  | String c s' => String (lower_char c) (lower s')
  end.

(** [needle in hay] *)
Fixpoint contains (needle hay : string) : bool :=
  if String.prefix needle hay then true
  else match hay with
       | EmptyString => false
       | String _ hay' => contains needle hay'
       end.

Definition is_digit (c : ascii) : bool :=
  let n := nat_of_ascii c in ((48 <=? n) && (n <=? 57))%nat.

(** [\s] on ASCII text: tab, line feed, vertical tab, form feed, carriage
    return, the four separators 0x1c-0x1f and the space. *)
Definition is_space (c : ascii) : bool :=
  let n := nat_of_ascii c in
  (((9 <=? n) && (n <=? 13)) || ((28 <=? n) && (n <=? 31)) || (n =? 32))%nat.

(** [\w] on ASCII text. *)
Definition is_word (c : ascii) : bool :=
  let n := nat_of_ascii c in
  (is_digit c || ((65 <=? n) && (n <=? 90)) || ((97 <=? n) && (n <=? 122))
   || (n =? 95))%nat.

Definition digit_value (c : ascii) : Z := Z.of_nat (nat_of_ascii c) - 48.

(** [int(s)] for a string of decimal digits; [None] stands for the
    [ValueError] of any other string. *)
Definition int_of_digits (s : list ascii) : option Z :=
  match s with
  | [] => None
  | _ => if forallb is_digit s
         then Some (fold_left (fun acc c => 10 * acc + digit_value c) s 0)
         else None
  end.

End Text.

(** ** Regex: the fragment of Python's [re] the two patterns use

    A backtracking matcher with Python's priorities: alternatives left to
    right, quantifiers greedy, capture groups set on the successful path. *)

Module Regex.

Inductive char_class := Digit | Space.

Inductive regex :=
| Eps
| Chr (c : ascii)
| Cls (k : char_class)
| Seq (r1 r2 : regex)
| Alt (r1 r2 : regex)
| Rep (lo : nat) (hi : option nat) (r : regex)   (* r{lo,hi}, greedy *)
| Group (i : nat) (r : regex)                    (* capture group i *)
| WordB.                                         (* \b *)

(** Literal text. *)
Fixpoint Lit (s : string) : regex :=
  match s with
  | EmptyString => Eps
  | String c EmptyString => Chr c
  | String c s' => Seq (Chr c) (Lit s')
  end.

Definition Opt (r : regex) : regex := Rep 0 (Some 1%nat) r.
Definition Star (r : regex) : regex := Rep 0 None r.

Fixpoint Alts (rs : list regex) : regex :=
  match rs with
  | [] => Eps
  | [r] => r
  | r :: rs' => Alt r (Alts rs')
  end.

Definition in_class (k : char_class) (c : ascii) : bool :=
  match k with
  | Digit => Text.is_digit c
  | Space => Text.is_space c
  end.

(** A position in the subject: the character before it (for [\b]), the
    text from it on, and the groups captured so far. *)
Record mstate := {
  prev : option ascii;
  rest : list ascii;
  caps : list (nat * list ascii)
}.

Definition advance (c : ascii) (tl : list ascii) (st : mstate) : mstate :=
  {| prev := Some c; rest := tl; caps := caps st |}.

Definition word_before (st : mstate) : bool :=
  match prev st with Some c => Text.is_word c | None => false end.

Definition word_after (st : mstate) : bool :=
  match rest st with c :: _ => Text.is_word c | [] => false end.

Definition set_cap (i : nat) (from to : mstate) : mstate :=
  let len := (length (rest from) - length (rest to))%nat in
  {| prev := prev to; rest := rest to;
     caps := (i, firstn len (rest from)) :: caps to |}.

(** [run r k st]: match [r] at [st], then the continuation [k]; the first
    success in priority order. A repetition stops when an iteration
    consumes nothing. *)
Fixpoint run (r : regex) (k : mstate -> option mstate) (st : mstate)
  : option mstate :=
  match r with
  | Eps => k st
  | Chr c =>
      match rest st with
      | c' :: tl => if Ascii.eqb c c' then k (advance c' tl st) else None
      | [] => None
      end
  | Cls cl =>
      match rest st with
      | c' :: tl => if in_class cl c' then k (advance c' tl st) else None
      | [] => None
      end
  | Seq r1 r2 => run r1 (run r2 k) st
  | Alt r1 r2 =>
      match run r1 k st with
      | Some res => Some res
      | None => run r2 k st
      end
  | Rep lo hi r1 =>
      (fix loop (n : nat) (lo : nat) (st : mstate) {struct n} : option mstate :=
         match n with
         | O => if (lo =? 0)%nat then k st else None
         | S n' =>
             match run r1 (fun st' =>
                             if (length (rest st') <? length (rest st))%nat
                             then loop n' (Nat.pred lo) st'
                             else None) st with
             | Some res => Some res
             | None => if (lo =? 0)%nat then k st else None
             end
         end)
        (match hi with Some h => h | None => length (rest st) end) lo st
  | Group i r1 => run r1 (fun st' => k (set_cap i st st')) st
  | WordB => if xorb (word_before st) (word_after st) then k st else None
  end.

(** A match object: the text matched and the groups ([group(i)] is [None]
    when group [i] took no part in the match). *)
Record match_obj := {
  matched : list ascii;
  groups : list (nat * list ascii)
}.

Definition group (i : nat) (m : match_obj) : option (list ascii) :=
  snd <$> List.find (fun p => (fst p =? i)%nat) (groups m).

(** [pattern.match] at one position. *)
Definition match_here (r : regex) (p : option ascii) (s : list ascii)
  : option match_obj :=
  match run r Some {| prev := p; rest := s; caps := [] |} with
  | Some st => Some {| matched := firstn (length s - length (rest st)) s;
                       groups := caps st |}
  | None => None
  end.

(** [re.search(r, s)]: the leftmost match. *)
Fixpoint search_from (r : regex) (p : option ascii) (s : list ascii)
  : option match_obj :=
  match match_here r p s with
  | Some m => Some m
  | None => match s with
            | [] => None
            | c :: s' => search_from r (Some c) s'
            end
  end.

Definition search (r : regex) (s : string) : option match_obj :=
  search_from r None (list_ascii_of_string s).

(** [re.finditer(r, s)]: the successive non-overlapping matches, left to
    right. [skip] counts the characters of the last match still to pass;
    after an empty match the scan moves on by one character. *)
Fixpoint finditer_from (r : regex) (skip : nat) (p : option ascii)
  (s : list ascii) : list match_obj :=
  match skip with
  | S skip' =>
      match s with
      | [] => []
      | c :: s' => finditer_from r skip' (Some c) s'
      end
  | O =>
      match match_here r p s with
      | Some m =>
          m :: match s with
               | [] => []
               | c :: s' => finditer_from r (Nat.pred (length (matched m))) (Some c) s'
               end
      | None =>
          match s with
          | [] => []
          | c :: s' => finditer_from r 0 (Some c) s'
          end
      end
  end.

Definition finditer (r : regex) (s : string) : list match_obj :=
  finditer_from r 0 None (list_ascii_of_string s).

End Regex.

(** ** Number: the arithmetic the scoring code relies on

    [normalize_score], [calculate_soft_score] and the blend in [search] use
    [+ - * /], [==] and [<] on whatever numbers the candidates and the job
    configuration carry. *)

Class Number (R : Type) := {
  lit : Q -> R;                 (* a numeric literal of the source *)
  add : R -> R -> R;
  sub : R -> R -> R;
  mul : R -> R -> R;
  div : R -> R -> R;
  num_eqb : R -> R -> bool;     (* x == y *)
  num_ltb : R -> R -> bool;     (* x < y *)
  int_div : Z -> Z -> R         (* a / b on two ints *)
}.

(** Exact rationals. *)
#[export] Instance Q_Number : Number Q := {|
  lit := fun q => q;
  add := Qplus;
  sub := Qminus;
  mul := Qmult;
  div := Qdiv;
  num_eqb := Qeq_bool;
  num_ltb := fun x y => negb (Qle_bool y x);
  int_div := fun a b => (inject_Z a / inject_Z b)%Q
|}.

(** Binary64 floats. Integers below 2^53 in magnitude convert exactly, and a
    literal [n/d] of two such integers is its correctly rounded quotient. *)
Module Binary64.

Fixpoint of_pos (p : positive) : float :=
  match p with
  | xH => PrimFloat.one
  | xO p' => PrimFloat.mul PrimFloat.two (of_pos p')
  | xI p' => PrimFloat.add (PrimFloat.mul PrimFloat.two (of_pos p')) PrimFloat.one
  end.

Definition of_Z (z : Z) : float :=
  match z with
  | Z0 => PrimFloat.zero
  | Zpos p => of_pos p
  | Zneg p => PrimFloat.opp (of_pos p)
  end.

#[export] Instance float_Number : Number float := {|
  lit := fun q => PrimFloat.div (of_Z (Qnum q)) (of_pos (Qden q));
  add := PrimFloat.add;
  sub := PrimFloat.sub;
  mul := PrimFloat.mul;
  div := PrimFloat.div;
  num_eqb := PrimFloat.eqb;
  num_ltb := PrimFloat.ltb;
  int_div := fun a b => PrimFloat.div (of_Z a) (of_Z b)
|}.

End Binary64.

(** ** utils.py *)

Module Utils.

Import Regex.

(** [normalize_score(score, min_score, max_score)] *)
Definition normalize_score {R} `{Number R} (score min_score max_score : R) : R :=
  if num_eqb max_score min_score then lit 0.5
  else div (sub score min_score) (sub max_score min_score).

Definition Seqs (rs : list regex) : regex := fold_right Seq Eps rs.

(** [(?:jan|feb|mar|apr|may|jun|jul|aug|sep|oct|nov|dec)], written
    [month] below. *)
Definition month : regex :=
  Alts (map Lit ["jan"; "feb"; "mar"; "apr"; "may"; "jun";
                 "jul"; "aug"; "sep"; "oct"; "nov"; "dec"]).

(** The pattern of [_calculate_experience_from_dates]:
    [(?:month)?\s*\'?(\d{2,4})\b\s*(?:-|to)\s*
     (?:(?:month)?\s*\'?(\d{2,4})|present|current|date|today)] *)
Definition date_pattern : regex :=
  Seqs [ Opt month; Star (Cls Space); Opt (Chr "'"%char);
         Group 1 (Rep 2 (Some 4%nat) (Cls Digit)); WordB;
         Star (Cls Space); Alt (Chr "-"%char) (Lit "to"); Star (Cls Space);
         Alts [ Seqs [ Opt month; Star (Cls Space); Opt (Chr "'"%char);
                       Group 2 (Rep 2 (Some 4%nat) (Cls Digit)) ];
                Lit "present"; Lit "current"; Lit "date"; Lit "today" ] ].

(** The pattern of [extract_years_experience]:
    [(\d{1,2})\+?\s*years? of (?:professional\s* )?experience], the
    source having no blank before the last closing parenthesis. *)
Definition explicit_pattern : regex :=
  Seqs [ Group 1 (Rep 1 (Some 2%nat) (Cls Digit)); Opt (Chr "+"%char);
         Star (Cls Space); Lit "year"; Opt (Chr "s"%char); Lit " of ";
         Opt (Seq (Lit "professional") (Star (Cls Space)));
         Lit "experience" ].

(** [int(f"20{s}" if len(s) == 2 else s)] *)
Definition year_of_str (s : list ascii) : option Z :=
  Text.int_of_digits
    (if (length s =? 2)%nat then list_ascii_of_string "20" ++ s else s).

Definition end_markers : list string := ["present"; "current"; "date"; "today"].

(** The first two statements of the loop body: [start_year] and
    [end_year], or [None] when an exception sends the loop to [continue]
    ([len(None)] raises the [TypeError] when a group is [None]). *)
Definition years_of_match (current_year : Z) (m : match_obj) : option (Z * Z) :=
  start_year_str ← group 1 m;
  start_year ← year_of_str start_year_str;
  end_str ← group 2 m;
  end_year ← (if existsb (String.eqb (string_of_list_ascii end_str)) end_markers
              then Some current_year
              else year_of_str end_str);
  Some (start_year, end_year).

(** [1980 <= start_year < end_year <= current_year] *)
Definition valid_range (current_year : Z) (r : Z * Z) : bool :=
  (1980 <=? fst r) && (fst r <? snd r) && (snd r <=? current_year).

(** The body of the [for match in re.finditer(...)] loop: the range it
    appends, if any. *)
Definition range_of_match (current_year : Z) (m : match_obj) : option (Z * Z) :=
  match years_of_match current_year m with
  | Some r => if valid_range current_year r then Some r else None
  | None => None
  end.

(** [date_ranges] when the loop is over. *)
Definition collect_ranges (text : string) (current_year : Z) : list (Z * Z) :=
  omap (range_of_match current_year) (finditer date_pattern text).

(** Tuple comparison [a <= b]. *)
Definition range_leb (a b : Z * Z) : bool :=
  (fst a <? fst b) || ((fst a =? fst b) && (snd a <=? snd b)).

Fixpoint insert_range (r : Z * Z) (l : list (Z * Z)) : list (Z * Z) :=
  match l with
  | [] => [r]
  | x :: l' => if range_leb r x then r :: l else x :: insert_range r l'
  end.

(** [date_ranges.sort()]: the ranges in ascending tuple order (tuples that
    compare equal are the same tuple, so the sorted list is the only one). *)
Definition sort_ranges (l : list (Z * Z)) : list (Z * Z) :=
  fold_right insert_range [] l.

(** One turn of the merging loop; [merged_ranges[-1]] is the last element. *)
Definition merge_step (merged_ranges : list (Z * Z)) (r : Z * Z) : list (Z * Z) :=
  match List.last (map Some merged_ranges) None with
  | None => merged_ranges ++ [r]
  | Some lst =>
      if snd lst <? fst r then merged_ranges ++ [r]
      else removelast merged_ranges ++ [(fst lst, Z.max (snd lst) (snd r))]
  end.

Definition merge_ranges (sorted : list (Z * Z)) : list (Z * Z) :=
  fold_left merge_step sorted [].

(** [sum(end - start for start, end in merged_ranges)] *)
Definition sum_spans (l : list (Z * Z)) : Z :=
  fold_left (fun acc r => acc + (snd r - fst r)) l 0.

(** [_calculate_experience_from_dates(text, current_year)] *)
Definition _calculate_experience_from_dates (text : string) (current_year : Z) : Z :=
  let date_ranges := sort_ranges (collect_ranges text current_year) in
  match date_ranges with
  | [] => 0
  | _ => sum_spans (merge_ranges date_ranges)
  end.

(** [extract_years_experience(text)], with the year of [datetime.now()]. *)
Definition extract_years_experience (text : string) (current_year : Z) : Z :=
  if String.eqb text "" then 0
  else
    let text_lower := Text.lower text in
    let explicit_years :=
      match search explicit_pattern text_lower with
      | Some m =>
          match group 1 m ≫= Text.int_of_digits with
          | Some n => n
          | None => 0
          end
      | None => 0
      end in
    let date_range_years :=
      let y := _calculate_experience_from_dates text_lower current_year in
      if y =? 0 then 0 else y in
    Z.min (Z.max explicit_years date_range_years) 50.

End Utils.

(** ** The candidate record

    The dict a candidate is, as [search] sees it after enrichment: the keys
    the retriever returns and the keys [parse_candidate_comprehensive] adds.
    A key that may be missing is an [option]; the boolean attributes read by
    name ([c.get(d, False)]) are the map [flags]. *)

Record Candidate (R : Type) := {
  cand_id : string;                    (* 'id' *)
  cand_name : option string;           (* 'name' *)
  full_text : option string;
  rerank_summary : option string;
  years_experience : option Z;
  flags : gmap string bool;            (* 'has_jd', 'top_us_universities', ... *)
  rrf_score : option R
}.
Arguments cand_id {R} _.
Arguments cand_name {R} _.
Arguments full_text {R} _.
Arguments rerank_summary {R} _.
Arguments years_experience {R} _.
Arguments flags {R} _.
Arguments rrf_score {R} _.

(** [d.get(key, dflt)] on an optional field. *)
Definition get {A} (field : option A) (dflt : A) : A := default dflt field.

(** ** filter_logger.py *)

Module FilterLog.

(** What [expected_value] and [actual_value] may hold. *)
Inductive value :=
| VNone
| VBool (b : bool)
| VInt (z : Z)
| VStr (s : string)
| VList (l : list string).

Record FilterFailure := {
  candidate_id : string;
  candidate_name : string;
  filter_type : string;
  filter_name : string;
  reason : string;
  expected_value : value;
  actual_value : value;
  timestamp : string
}.

Record FilterSession := {
  job_config_name : string;
  query : string;
  total_candidates : Z;
  candidates_after_filtering : Z;
  filter_failures : list FilterFailure;
  session_timestamp : string           (* 'timestamp' *)
}.

(** The log file: missing, holding the sessions last written, or holding
    something [json.load] or the dataclass constructors reject. *)
Inductive file_state :=
| NoFile
| FileWith (sessions : list FilterSession)
| Unreadable.

(** What happens to the file when [save_to_file] writes: the write goes
    through, or it raises and leaves the file in some state. *)
Inductive write_outcome :=
| Written
| WriteFailed (left_behind : file_state).

Record FilterLogger := {
  current_session : option FilterSession;
  all_sessions : list FilterSession;
  log_file : file_state
}.

(** [FilterLogger(log_file)] *)
Definition init (f : file_state) : FilterLogger :=
  {| current_session := None; all_sessions := []; log_file := f |}.

Definition start_session (self : FilterLogger)
  (job_config_name query : string) (total_candidates : Z) (now : string)
  : FilterLogger :=
  {| current_session :=
       Some {| job_config_name := job_config_name;
               query := query;
               total_candidates := total_candidates;
               candidates_after_filtering := 0;
               filter_failures := [];
               session_timestamp := now |};
     all_sessions := all_sessions self;
     log_file := log_file self |}.

Definition log_filter_failure {R} (self : FilterLogger) (candidate : Candidate R)
  (filter_type filter_name reason : string) (expected_value actual_value : value)
  (now : string) : FilterLogger :=
  match current_session self with
  | None => self
  | Some s =>
      let failure :=
        {| candidate_id := cand_id candidate;
           candidate_name := get (cand_name candidate) "Unknown";
           filter_type := filter_type;
           filter_name := filter_name;
           reason := reason;
           expected_value := expected_value;
           actual_value := actual_value;
           timestamp := now |} in
      {| current_session :=
           Some {| job_config_name := job_config_name s;
                   query := query s;
                   total_candidates := total_candidates s;
                   candidates_after_filtering := candidates_after_filtering s;
                   filter_failures := filter_failures s ++ [failure];
                   session_timestamp := session_timestamp s |};
         all_sessions := all_sessions self;
         log_file := log_file self |}
  end.

Definition save_to_file (self : FilterLogger) (w : write_outcome) : FilterLogger :=
  {| current_session := current_session self;
     all_sessions := all_sessions self;
     log_file := match w with
                 | Written => FileWith (all_sessions self)
                 | WriteFailed f => f
                 end |}.

Definition end_session (self : FilterLogger) (candidates_after_filtering : Z)
  (w : write_outcome) : FilterLogger :=
  match current_session self with
  | None => self
  | Some s =>
      let s' := {| job_config_name := job_config_name s;
                   query := query s;
                   total_candidates := total_candidates s;
                   candidates_after_filtering := candidates_after_filtering;
                   filter_failures := filter_failures s;
                   session_timestamp := session_timestamp s |} in
      let self1 := {| current_session := Some s';
                      all_sessions := all_sessions self ++ [s'];
                      log_file := log_file self |} in
      let self2 := save_to_file self1 w in
      {| current_session := None;
         all_sessions := all_sessions self2;
         log_file := log_file self2 |}
  end.

Definition load_from_file (self : FilterLogger) : FilterLogger :=
  match log_file self with
  | NoFile => self
  | FileWith sessions =>
      {| current_session := current_session self;
         all_sessions := sessions;
         log_file := log_file self |}
  | Unreadable =>
      {| current_session := current_session self;
         all_sessions := [];
         log_file := log_file self |}
  end.

(** *** [get_filter_stats] *)

Record JobPerformance (R : Type) := {
  jp_total_candidates : Z;             (* 'total_candidates' *)
  jp_filtered_candidates : Z;          (* 'filtered_candidates' *)
  jp_failure_count : Z;                (* 'failure_count' *)
  jp_filter_rate : R                   (* 'filter_rate' *)
}.
Arguments jp_total_candidates {R} _.
Arguments jp_filtered_candidates {R} _.
Arguments jp_failure_count {R} _.
Arguments jp_filter_rate {R} _.

Record OverallStats (R : Type) := {
  total_candidates_processed : Z;
  total_candidates_passed : Z;
  total_filter_failures : Z;
  overall_filter_rate : R
}.
Arguments total_candidates_processed {R} _.
Arguments total_candidates_passed {R} _.
Arguments total_filter_failures {R} _.
Arguments overall_filter_rate {R} _.

Record FilterStats (R : Type) := {
  overall_stats : OverallStats R;
  failure_breakdown : gmap string Z;
  job_performance : gmap string (JobPerformance R)
}.
Arguments overall_stats {R} _.
Arguments failure_breakdown {R} _.
Arguments job_performance {R} _.

(** [sum(f(x) for x in xs)] *)
Definition py_sum {A} (f : A -> Z) (xs : list A) : Z :=
  fold_left (fun acc x => acc + f x) xs 0.

Definition len {A} (l : list A) : Z := Z.of_nat (length l).

Definition filter_key (failure : FilterFailure) : string :=
  filter_type failure +:+ "." +:+ filter_name failure.

(** The body of the inner loop over [session.filter_failures]. *)
Definition count_failure (failure_breakdown : gmap string Z)
  (failure : FilterFailure) : gmap string Z :=
  let k := filter_key failure in
  let failure_breakdown :=
    match failure_breakdown !! k with
    | None => <[k := 0]> failure_breakdown
    | Some _ => failure_breakdown
    end in
  <[k := default 0 (failure_breakdown !! k) + 1]> failure_breakdown.

Section Stats.
Context {R : Type} `{Number R}.

(** The body of the loop that fills [job_performance]. *)
Definition add_session (job_performance : gmap string (JobPerformance R))
  (session : FilterSession) : gmap string (JobPerformance R) :=
  let job_name := job_config_name session in
  let job_performance :=
    match job_performance !! job_name with
    | None => <[job_name := {| jp_total_candidates := 0;
                               jp_filtered_candidates := 0;
                               jp_failure_count := 0;
                               jp_filter_rate := lit 0 |}]> job_performance
    | Some _ => job_performance
    end in
  alter (fun jp =>
           {| jp_total_candidates := jp_total_candidates jp + total_candidates session;
              jp_filtered_candidates :=
                jp_filtered_candidates jp + candidates_after_filtering session;
              jp_failure_count := jp_failure_count jp + len (filter_failures session);
              jp_filter_rate := jp_filter_rate jp |})
        job_name job_performance.

(** The body of the loop that computes the filter rates. *)
Definition set_filter_rate (jp : JobPerformance R) : JobPerformance R :=
  let total := jp_total_candidates jp in
  let filtered := jp_filtered_candidates jp in
  if total >? 0
  then {| jp_total_candidates := total;
          jp_filtered_candidates := filtered;
          jp_failure_count := jp_failure_count jp;
          jp_filter_rate := int_div (total - filtered) total |}
  else jp.

(** [get_filter_stats()]; [None] is the empty dict returned when there is
    no session. *)
Definition get_filter_stats (self : FilterLogger) : option (FilterStats R) :=
  match all_sessions self with
  | [] => None
  | _ =>
      let total_candidates := py_sum total_candidates (all_sessions self) in
      let total_filtered := py_sum candidates_after_filtering (all_sessions self) in
      let total_failures :=
        py_sum (fun s => len (filter_failures s)) (all_sessions self) in
      let failure_breakdown :=
        fold_left (fun fb session => fold_left count_failure (filter_failures session) fb)
                  (all_sessions self) ∅ in
      let job_performance := fold_left add_session (all_sessions self) ∅ in
      let job_performance := set_filter_rate <$> job_performance in
      Some {| overall_stats :=
                {| total_candidates_processed := total_candidates;
                   total_candidates_passed := total_filtered;
                   total_filter_failures := total_failures;
                   overall_filter_rate :=
                     if total_candidates >? 0
                     then int_div (total_candidates - total_filtered) total_candidates
                     else lit 0 |};
              failure_breakdown := failure_breakdown;
              job_performance := job_performance |}
  end.
End Stats.

(** *** Sequences of calls on one logger *)

Inductive op :=
| StartSession (job_config_name query : string) (total_candidates : Z) (now : string)
| LogFilterFailure (candidate_id : string) (candidate_name : option string)
    (filter_type filter_name reason : string) (expected_value actual_value : value)
    (now : string)
| EndSession (candidates_after_filtering : Z) (w : write_outcome)
| SaveToFile (w : write_outcome)
| LoadFromFile.

Definition step (self : FilterLogger) (o : op) : FilterLogger :=
  match o with
  | StartSession j q t now => start_session self j q t now
  | LogFilterFailure i n ft fn r e a now =>
      log_filter_failure (R:=Q) self
        {| cand_id := i; cand_name := n; full_text := None; rerank_summary := None;
           years_experience := None; flags := ∅; rrf_score := None |}
        ft fn r e a now
  | EndSession n w => end_session self n w
  | SaveToFile w => save_to_file self w
  | LoadFromFile => load_from_file self
  end.

Definition run_ops (self : FilterLogger) (ops : list op) : FilterLogger :=
  fold_left step ops self.

End FilterLog.

(** ** search_engine.py: hard filters, soft score, ranking *)

Module SearchEngine.

Import FilterLog.

(** An item of the [required_education] dict: the key ["any_of"] with its
    list of flags, or a degree flag with the boolean it is required to
    have. *)
Inductive edu_item :=
| any_of (required : list string)
| degree_flag (degree : string) (required : bool).

Record HardCriteria := {
  min_years_experience : option Z;
  max_years_experience : option Z;
  required_education : option (list edu_item);
  required_keywords : option (list string)
}.

(** [not hard_criteria]: no dict at all, or a dict without keys. *)
Definition hard_falsy (hard_criteria : option HardCriteria) : bool :=
  match hard_criteria with
  | None => true
  | Some hc =>
      match min_years_experience hc, max_years_experience hc,
            required_education hc, required_keywords hc with
      | None, None, None, None => true
      | _, _, _, _ => false
      end
  end.

Record SoftCriteria (R : Type) := {
  preferred_experience : option Z;
  weight_factors : option (list (string * R));
  keyword_lists : gmap string (list string)   (* the keys '<...>_keywords' *)
}.
Arguments preferred_experience {R} _.
Arguments weight_factors {R} _.
Arguments keyword_lists {R} _.

(** [not soft_criteria] *)
Definition soft_falsy {R} (soft_criteria : option (SoftCriteria R)) : bool :=
  match soft_criteria with
  | None => true
  | Some sc =>
      match preferred_experience sc, weight_factors sc with
      | None, None => bool_decide (keyword_lists sc = ∅)
      | _, _ => false
      end
  end.

Section Engine.
Context {R : Type} `{Number R}.

(** [(c.get('full_text', '') + ' ' + c.get('rerank_summary', '')).lower()] *)
Definition text_blob (c : Candidate R) : string :=
  Text.lower (get (full_text c) "" +:+ " " +:+ get (rerank_summary c) "").

(** [c.get(d, False)] *)
Definition flag (c : Candidate R) (d : string) : bool :=
  default false (flags c !! d).

(** The loop over [edu_reqs.items()]; the result is [passes_edu]. *)
Fixpoint education_loop (c : Candidate R) (items : list edu_item) : bool :=
  match items with
  | [] => true
  | any_of required :: items' =>
      if negb (existsb (flag c) required) then false
      else education_loop c items'
  | degree_flag degree required :: items' =>
      if required && negb (flag c degree) then false
      else education_loop c items'
  end.

(** The body of the loop of [apply_hard_filters] for one candidate:
    [true] when the candidate is appended to [filtered_candidates]. *)
Definition passes_hard_filters (hard_criteria : HardCriteria) (c : Candidate R)
  : bool :=
  let passes_all := true in
  let min_years := min_years_experience hard_criteria in
  let max_years := max_years_experience hard_criteria in
  let actual_years := get (years_experience c) 0 in
  let passes_all :=
    match min_years with
    | Some m => if actual_years <? m then false else passes_all
    | None => passes_all
    end in
  let passes_all :=
    match max_years with
    | Some m => if actual_years >? m then false else passes_all
    | None => passes_all
    end in
  if negb passes_all then false
  else
    let edu_reqs := get (required_education hard_criteria) [] in
    let passes_all :=
      match edu_reqs with
      | [] => passes_all
      | _ => if negb (education_loop c edu_reqs) then false else passes_all
      end in
    if negb passes_all then false
    else
      let required_keywords := get (required_keywords hard_criteria) [] in
      let passes_all :=
        match required_keywords with
        | [] => passes_all
        | _ =>
            let text_to_search := text_blob c in
            if negb (forallb (fun kw => Text.contains (Text.lower kw) text_to_search)
                             required_keywords)
            then false else passes_all
        end in
      if negb passes_all then false
      else passes_all.

(** [apply_hard_filters(candidates, hard_criteria)] *)
Definition apply_hard_filters (candidates : list (Candidate R))
  (hard_criteria : option HardCriteria) : list (Candidate R) :=
  match hard_criteria with
  | Some hc =>
      if hard_falsy hard_criteria then candidates
      else
        fold_left (fun filtered_candidates c =>
                     if passes_hard_filters hc c
                     then filtered_candidates ++ [c]
                     else filtered_candidates)
                  candidates []
  | None => candidates
  end.

(** [any(kw.lower() in text_blob for kw in soft_criteria.get(key, []))] *)
Definition any_keyword (sc : SoftCriteria R) (key : string) (blob : string) : bool :=
  existsb (fun kw => Text.contains (Text.lower kw) blob)
          (default [] (keyword_lists sc !! key)).

(** [calculate_soft_score(candidate, soft_criteria)] *)
Definition calculate_soft_score (candidate : Candidate R)
  (soft_criteria : option (SoftCriteria R)) : R :=
  match soft_criteria with
  | Some sc =>
      if soft_falsy soft_criteria then lit 0
      else
        let score := lit 0 in
        let blob := text_blob candidate in
        let score :=
          fold_left (fun score fw =>
                       if any_keyword sc (fst fw +:+ "_keywords") blob
                       then add score (snd fw) else score)
                    (get (weight_factors sc) []) score in
        let score :=
          if any_keyword sc "preferred_keywords" blob
          then add score (lit 1) else score in
        let score :=
          if get (years_experience candidate) 0 >=? get (preferred_experience sc) 99
          then add score (lit 2) else score in
        score
  | None => lit 0
  end.

(** [(initial_score * 0.4) + (soft_score * 0.6)] *)
Definition final_score (c : Candidate R) (soft_criteria : option (SoftCriteria R)) : R :=
  let soft_score := calculate_soft_score c soft_criteria in
  let initial_score := get (rrf_score c) (lit 0) in
  add (mul initial_score (lit 0.4)) (mul soft_score (lit 0.6)).

(** [min(scores)] and [max(scores)] of a non-empty list: the first
    smallest, the first largest. *)
Definition py_min (x : R) (xs : list R) : R :=
  fold_left (fun m y => if num_ltb y m then y else m) xs x.

Definition py_max (x : R) (xs : list R) : R :=
  fold_left (fun m y => if num_ltb m y then y else m) xs x.

(** [l.sort(key=..., reverse=True)] on pairs of an item and its key: the
    stable sort in descending order of the key. *)
Fixpoint insert_desc {A} (x : A * R) (l : list (A * R)) : list (A * R) :=
  match l with
  | [] => [x]
  | y :: l' => if num_ltb (snd x) (snd y) then y :: insert_desc x l'
               else x :: l
  end.

Definition sort_desc {A} (l : list (A * R)) : list (A * R) :=
  fold_right insert_desc [] l.

(** [l[:k]] *)
Definition slice_to {A} (l : list A) (k : Z) : list A :=
  if k <? 0 then firstn (Z.to_nat (len l + k)) l
  else firstn (Z.to_nat k) l.

(** The scores [search] attaches to the filtered candidates: each
    candidate with its ['final_score']. *)
Definition with_final_scores (filtered_candidates : list (Candidate R))
  (soft_criteria : option (SoftCriteria R)) : list (Candidate R * R) :=
  map (fun c => (c, final_score c soft_criteria)) filtered_candidates.

(** Each candidate with its ['normalized_score']. *)
Definition with_normalized_scores (scored : list (Candidate R * R))
  : list (Candidate R * R) :=
  match map snd scored with
  | [] => []
  | s :: scores =>
      let min_s := py_min s scores in
      let max_s := py_max s scores in
      map (fun cf => (fst cf, Utils.normalize_score (snd cf) min_s max_s)) scored
  end.

(** [search] from "if not filtered_candidates" on: the ranked
    candidates, then their identifiers. *)
Definition ranked (filtered_candidates : list (Candidate R))
  (soft_criteria : option (SoftCriteria R)) : list (Candidate R * R) :=
  sort_desc (with_normalized_scores (with_final_scores filtered_candidates soft_criteria)).

Definition rank_stage (filtered_candidates : list (Candidate R))
  (soft_criteria : option (SoftCriteria R)) (top_k : Z) : list string :=
  match filtered_candidates with
  | [] => []
  | _ => map (fun cn => cand_id (fst cn))
             (slice_to (ranked filtered_candidates soft_criteria) top_k)
  end.

(** [search], the three lines around [apply_hard_filters]: the session
    is opened, the candidates are filtered, the session is closed. *)
Definition filter_stage (filter_logger : FilterLogger) (job_name query : string)
  (processed_candidates : list (Candidate R)) (hard_criteria : option HardCriteria)
  (now : string) (w : write_outcome)
  : list (Candidate R) * FilterLogger :=
  let filter_logger :=
    start_session filter_logger job_name query (len processed_candidates) now in
  let filtered_candidates := apply_hard_filters processed_candidates hard_criteria in
  let filter_logger := end_session filter_logger (len filtered_candidates) w in
  (filtered_candidates, filter_logger).

(** [search] once the candidates are enriched: [job_config.get(...)]
    gives the two criteria. *)
Definition search_processed (filter_logger : FilterLogger) (job_name query : string)
  (processed_candidates : list (Candidate R))
  (hard_criteria : option HardCriteria) (soft_criteria : option (SoftCriteria R))
  (top_k : Z) (now : string) (w : write_outcome)
  : list string * FilterLogger :=
  let '(filtered_candidates, filter_logger) :=
    filter_stage filter_logger job_name query processed_candidates hard_criteria now w in
  (rank_stage filtered_candidates soft_criteria top_k, filter_logger).

End Engine.

End SearchEngine.

(** ** The properties, in the words of the specification *)

Module Spec.

Import FilterLog SearchEngine.

(** *** Years of experience *)

(** Ranges sorted by start year. *)
Definition by_start (a b : Z * Z) : Prop := fst a <= fst b.

(** The sweep: [cur] is the last merged interval; the next range extends
    it when it starts at or before its end, else opens a new interval. *)
Fixpoint sweep (cur : Z * Z) (l : list (Z * Z)) : list (Z * Z) :=
  match l with
  | [] => [cur]
  | r :: l' =>
      if fst r <=? snd cur
      then sweep (fst cur, Z.max (snd cur) (snd r)) l'
      else cur :: sweep r l'
  end.

Definition merged_intervals (sorted : list (Z * Z)) : list (Z * Z) :=
  match sorted with
  | [] => []
  | r :: l => sweep r l
  end.

(** The sum of [end - start] over a list of intervals. *)
Definition total_span (l : list (Z * Z)) : Z :=
  fold_right (fun r acc => (snd r - fst r) + acc) 0 l.

(** [explicit_years]: the number of the first "N years of experience"
    phrase of the text, 0 without one. *)
Definition explicit_years (text : string) : Z :=
  match Regex.search Utils.explicit_pattern (Text.lower text) with
  | Some m => default 0 (Regex.group 1 m ≫= Text.int_of_digits)
  | None => 0
  end.

(** [date_range_years]: the years the merged date ranges of the text span. *)
Definition date_range_years (text : string) (current_year : Z) : Z :=
  Utils._calculate_experience_from_dates (Text.lower text) current_year.

(** *** Hard filters *)

Section HardFilter.
Context {R : Type}.

(** The experience bounds: [years_experience] is not below
    [min_years_experience] nor above [max_years_experience], where they
    are given. *)
Definition experience_ok (hc : HardCriteria) (c : Candidate R) : Prop :=
  let years := get (years_experience c) 0 in
  (forall m, min_years_experience hc = Some m -> m <= years) /\
  (forall m, max_years_experience hc = Some m -> years <= m).

(** The candidate holds a flag: the key is in its record, with the value
    true. *)
Definition holds_flag (c : Candidate R) (d : string) : Prop :=
  flags c !! d = Some true.

(** The required education: an [any_of] list has at least one flag the
    candidate holds, and a flag required directly is held. *)
Definition education_ok (hc : HardCriteria) (c : Candidate R) : Prop :=
  forall item, In item (get (required_education hc) []) ->
    match item with
    | any_of required => exists d, In d required /\ holds_flag c d
    | degree_flag degree required => required = true -> holds_flag c degree
    end.

(** The required keywords: each one, lowered, is a substring of the
    lowered full text and summary, joined by one blank as the code joins
    them. *)
Definition keywords_ok (hc : HardCriteria) (c : Candidate R) : Prop :=
  forall kw, In kw (get (required_keywords hc) []) ->
    Text.contains (Text.lower kw)
      (Text.lower (get (full_text c) "" +:+ " " +:+ get (rerank_summary c) ""))
    = true.

(** The required keywords as the specification words them: each one,
    lowered, is a substring of the lowered concatenation of the full text and
    the summary. *)
Definition keywords_in_concatenation (hc : HardCriteria) (c : Candidate R) : Prop :=
  forall kw, In kw (get (required_keywords hc) []) ->
    Text.contains (Text.lower kw)
      (Text.lower (get (full_text c) "" +:+ get (rerank_summary c) ""))
    = true.

(** A dict of criteria without keys. *)
Definition no_criteria : HardCriteria :=
  {| min_years_experience := None; max_years_experience := None;
     required_education := None; required_keywords := None |}.
End HardFilter.

(** *** Soft score *)

Section SoftScore.
Context {R : Type} `{Number R}.

(** What a factor contributes: its whole weight when one of its keywords is
    in the text, nothing otherwise. *)
Definition factor_credit (sc : SoftCriteria R) (blob : string) (fw : string * R) : R :=
  if any_keyword sc (fst fw +:+ "_keywords") blob then snd fw else lit 0.

(** The flat 1.0 of the global preferred keywords. *)
Definition keyword_bonus (sc : SoftCriteria R) (blob : string) : R :=
  if any_keyword sc "preferred_keywords" blob then lit 1 else lit 0.

(** The flat 2.0 of the preferred experience, skipped when no preferred
    experience is given. *)
Definition experience_bonus (sc : SoftCriteria R) (c : Candidate R) : R :=
  match preferred_experience sc with
  | Some p => if p <=? get (years_experience c) 0 then lit 2 else lit 0
  | None => lit 0
  end.

Definition soft_score (c : Candidate R) (sc : SoftCriteria R) : R :=
  add (add (fold_right add (lit 0)
              (map (factor_credit sc (text_blob c)) (get (weight_factors sc) [])))
           (keyword_bonus sc (text_blob c)))
      (experience_bonus sc c).

(** A dict of soft criteria without keys. *)
Definition no_soft_criteria : SoftCriteria R :=
  {| preferred_experience := None; weight_factors := None; keyword_lists := ∅ |}.
End SoftScore.

(** *** Ranking *)

(** Descending order of the normalized score. *)
Definition by_score_desc {A} (a b : A * Q) : Prop := (snd b <= snd a)%Q.

(** The entries of a list whose score equals [q], in their order. *)
Definition with_score {A} (q : Q) (l : list (A * Q)) : list (A * Q) :=
  List.filter (fun x => Qeq_bool (snd x) q) l.

(** *** Filter statistics *)

(** The sum of [f] over a list. *)
Definition sum_of {A} (f : A -> Z) (l : list A) : Z :=
  fold_right (fun x acc => f x + acc) 0 l.

(** The failures of all the sessions, and those of one breakdown key. *)
Definition all_failures (sessions : list FilterSession) : list FilterFailure :=
  concat (map filter_failures sessions).

Definition failures_keyed (k : string) (sessions : list FilterSession) : Z :=
  len (List.filter (fun f => String.eqb (filter_key f) k) (all_failures sessions)).

(** The sessions of one job configuration. *)
Definition sessions_of (job : string) (sessions : list FilterSession)
  : list FilterSession :=
  List.filter (fun s => String.eqb (job_config_name s) job) sessions.

(** [(processed - passed) / processed], 0 when nothing was processed. *)
Definition filter_rate (processed passed : Z) : Q :=
  if processed >? 0 then (inject_Z (processed - passed) / inject_Z processed)%Q
  else 0%Q.

(** The totals of a list of sessions with their derived filter rate. *)
Definition job_totals (sessions : list FilterSession) : JobPerformance Q :=
  {| jp_total_candidates := sum_of total_candidates sessions;
     jp_filtered_candidates := sum_of candidates_after_filtering sessions;
     jp_failure_count := sum_of (fun s => len (filter_failures s)) sessions;
     jp_filter_rate := filter_rate (sum_of total_candidates sessions)
                         (sum_of candidates_after_filtering sessions) |}.

(** A count [n] added to an entry of the breakdown: the entry appears with
    the first failure. *)
Definition bump (o : option Z) (n : Z) : option Z :=
  if n =? 0 then o else Some (default 0 o + n).

(** What one session adds to the entry of its job. *)
Definition accumulate (jp : JobPerformance Q) (session : FilterSession) : JobPerformance Q :=
  {| jp_total_candidates := jp_total_candidates jp + total_candidates session;
     jp_filtered_candidates := jp_filtered_candidates jp + candidates_after_filtering session;
     jp_failure_count := jp_failure_count jp + len (filter_failures session);
     jp_filter_rate := jp_filter_rate jp |}.

Definition fresh_entry : JobPerformance Q :=
  {| jp_total_candidates := 0; jp_filtered_candidates := 0;
     jp_failure_count := 0; jp_filter_rate := 0%Q |}.

(** The logger with its open session dropped. *)
Definition without_open_session (self : FilterLogger) : FilterLogger :=
  {| current_session := None;
     all_sessions := all_sessions self;
     log_file := log_file self |}.

(** A session with its count of survivors set. *)
Definition closed_with (s : FilterSession) (survivors : Z) : FilterSession :=
  {| job_config_name := job_config_name s; query := query s;
     total_candidates := total_candidates s;
     candidates_after_filtering := survivors;
     filter_failures := filter_failures s;
     session_timestamp := session_timestamp s |}.

End Spec.

(** ** Worked examples of the specification *)

Module Examples.

Import FilterLog SearchEngine.

(** A candidate with two years of experience, and the criterion of a
    minimum of three. *)
Definition two_years : Candidate Q :=
  {| cand_id := "c1"; cand_name := Some "Ada"; full_text := Some "paralegal";
     rerank_summary := None; years_experience := Some 2; flags := ∅;
     rrf_score := Some 0.5%Q |}.

Definition min_three : option HardCriteria :=
  Some {| min_years_experience := Some 3; max_years_experience := None;
          required_education := None; required_keywords := None |}.

(** A candidate whose full text is "tax" and whose summary is "law", and
    the criteria that require one keyword. *)
Definition tax_law : Candidate Q :=
  {| cand_id := "c2"; cand_name := None; full_text := Some "tax";
     rerank_summary := Some "law"; years_experience := Some 5; flags := ∅;
     rrf_score := None |}.

Definition keyword_required (kw : string) : HardCriteria :=
  {| min_years_experience := None; max_years_experience := None;
     required_education := None; required_keywords := Some [kw] |}.

Section Ranking.
Context {R : Type} `{Number R}.

Definition retrieved (i text : string) (similarity : Q) : Candidate R :=
  {| cand_id := i; cand_name := None; full_text := Some text; rerank_summary := None;
     years_experience := Some 4; flags := ∅; rrf_score := Some (lit similarity) |}.

(** Three candidates of similarities 0.9, 0.5 and 0.2, and soft criteria
    under which their soft scores are 0, 0 and 5. *)
Definition three_candidates : list (Candidate R) :=
  [ retrieved "c1" "Java developer" 0.9;
    retrieved "c2" "Go developer" 0.5;
    retrieved "c3" "Rust developer" 0.2 ].

Definition rust_criteria : option (SoftCriteria R) :=
  Some {| preferred_experience := Some 10;
          weight_factors := Some [("systems", lit 5)];
          keyword_lists := {[ "systems_keywords" := ["rust"; "c++"] ]} |}.

(** Weight factors a = 3.0 and b = 2.0, a text with a keyword of a only,
    and the same text with that keyword a second time. *)
Definition ab_criteria : SoftCriteria R :=
  {| preferred_experience := None;
     weight_factors := Some [("a", lit 3.0); ("b", lit 2.0)];
     keyword_lists := {[ "a_keywords" := ["python"; "django"];
                         "b_keywords" := ["kubernetes"] ]} |}.

Definition a_once : Candidate R := retrieved "c1" "Python developer" 0.9.
Definition a_twice : Candidate R :=
  retrieved "c1" "Python developer and Python trainer" 0.9.

(** The candidate of [a_once] with 99 years of experience. *)
Definition veteran : Candidate R :=
  {| cand_id := "c1"; cand_name := None; full_text := Some "Python developer";
     rerank_summary := None; years_experience := Some 99; flags := ∅;
     rrf_score := Some (lit 0.9) |}.

(** A factor of negative weight. *)
Definition penalty_criteria : SoftCriteria R :=
  {| preferred_experience := None;
     weight_factors := Some [("a", lit (-1))];
     keyword_lists := {[ "a_keywords" := ["python"] ]} |}.
End Ranking.

(** Two closed sessions, of 100 candidates with 40 passed and of 50 with 30. *)
Definition closed (job : string) (total passed : Z) (failures : list FilterFailure)
  : FilterSession :=
  {| job_config_name := job; query := "q"; total_candidates := total;
     candidates_after_filtering := passed; filter_failures := failures;
     session_timestamp := "2025-01-01T00:00:00" |}.

(** A logger of one closed session, then: a session is opened, a failure is
    logged, a second session is opened over the first and closed. *)
Definition one_closed : FilterLogger :=
  {| current_session := None;
     all_sessions := [closed "Tax Lawyer" 100 40 []];
     log_file := FileWith [closed "Tax Lawyer" 100 40 []] |}.

Definition overlapping_calls : list op :=
  [ StartSession "Medical Doctor" "physician" 3 "2025-01-02T10:00:00";
    LogFilterFailure "c7" (Some "Grace") "hard" "min_years_experience"
      "too junior" (VInt 3) (VInt 2) "2025-01-02T10:00:01";
    StartSession "Radiology" "radiologist" 2 "2025-01-02T10:00:02";
    EndSession 2 Written ].

Definition two_sessions : FilterLogger :=
  {| current_session := None;
     all_sessions := [closed "Tax Lawyer" 100 40 []; closed "Medical Doctor" 50 30 []];
     log_file := NoFile |}.

End Examples.

(** ** Years of experience ([utils.py]) *)

(** ** Further properties: what they are stated with *)

Module Coverage.

(** The year [y] lies in the range [r]: [start <= y < end]. *)
Definition inside (r : Z * Z) (y : Z) : bool := (fst r <=? y) && (y <? snd r).

(** The year [y] lies in one of the ranges. *)
Definition covered (l : list (Z * Z)) (y : Z) : bool :=
  existsb (fun r => inside r y) l.

(** How many of the years [lo], ..., [hi - 1] lie in one of the ranges. *)
Definition years_covered (l : list (Z * Z)) (lo hi : Z) : Z :=
  Z.of_nat (length (List.filter (covered l) (seqZ lo (hi - lo)))).

(** The range [a] ends before the range [b] starts. *)
Definition separated (a b : Z * Z) : Prop := snd a < fst b.

(** A range lies within the years [lo] to [hi] and is not empty. *)
Definition within (lo hi : Z) (r : Z * Z) : Prop :=
  lo <= fst r /\ fst r < snd r /\ snd r <= hi.

End Coverage.

Module LogProps.

Import FilterLog.

(** The file holds exactly the sessions the logger keeps. *)
Definition in_sync (self : FilterLogger) : Prop :=
  log_file self = FileWith (all_sessions self).

(** The writes of a call, if it writes, go through. *)
Definition writes_ok (o : op) : Prop :=
  match o with
  | EndSession _ w | SaveToFile w => w = Written
  | _ => True
  end.

(** The call of [log_filter_failure] that records the failure [f]. *)
Definition log_call (f : FilterFailure) : op :=
  LogFilterFailure (candidate_id f) (Some (candidate_name f)) (filter_type f)
    (filter_name f) (reason f) (expected_value f) (actual_value f) (timestamp f).

End LogProps.

Module FilterProps.

Import SearchEngine.

(** Whether a candidate is kept under criteria that may be absent. *)
Definition kept {R} (hard_criteria : option HardCriteria) (c : Candidate R) : bool :=
  match hard_criteria with
  | Some hc => passes_hard_filters hc c
  | None => true
  end.

(** The sum of the weights of [weight_factors]. *)
Definition total_weight (weights : list (string * Q)) : Q :=
  fold_right Qplus 0%Q (map snd weights).

End FilterProps.

Module RegexProps.

Import Regex.

(** Every capture of a state is a string of decimal digits. *)
Definition digit_caps (st : mstate) : Prop :=
  Forall (fun ic => forallb Text.is_digit (snd ic) = true) (caps st).

(** A continuation keeps the captures strings of digits. *)
Definition keeps_digit_caps (k : mstate -> option mstate) : Prop :=
  forall st res, digit_caps st -> k st = Some res -> digit_caps res.

(** The patterns whose groups are all of the form [(\d{lo,hi})]. *)
Fixpoint digit_groups (r : regex) : Prop :=
  match r with
  | Eps | Chr _ | Cls _ | WordB => True
  | Seq r1 r2 | Alt r1 r2 => digit_groups r1 /\ digit_groups r2
  | Rep _ _ r1 => digit_groups r1
  | Group _ r1 => exists lo hi, r1 = Rep lo (Some hi) (Cls Digit)
  end.

End RegexProps.

(** ** utils.py: education, university tiers and enrichment *)

Module Enrichment.

Import Regex Utils.

(** [\.?] *)
Definition dot_opt : regex := Opt (Chr "."%char).

(** The six patterns of [check_education_level], each [\b(...)\b]:
    [b\.?s\.?|b\.?a\.?|bachelor], [m\.?s\.?|m\.?a\.?|master|mba],
    [ph\.?d|phd|doctorate|doctoral], [j\.?d|jd|juris doctor],
    [llm|l\.?l\.?m] and [m\.?d|md|medical doctor]. *)
Definition degree (alternatives : list regex) : regex :=
  Seqs [WordB; Group 1 (Alts alternatives); WordB].

Definition bachelors_pattern : regex :=
  degree [ Seqs [Chr "b"%char; dot_opt; Chr "s"%char; dot_opt];
           Seqs [Chr "b"%char; dot_opt; Chr "a"%char; dot_opt];
           Lit "bachelor" ].

Definition masters_pattern : regex :=
  degree [ Seqs [Chr "m"%char; dot_opt; Chr "s"%char; dot_opt];
           Seqs [Chr "m"%char; dot_opt; Chr "a"%char; dot_opt];
           Lit "master"; Lit "mba" ].

Definition phd_pattern : regex :=
  degree [ Seqs [Lit "ph"; dot_opt; Chr "d"%char];
           Lit "phd"; Lit "doctorate"; Lit "doctoral" ].

Definition jd_pattern : regex :=
  degree [ Seqs [Chr "j"%char; dot_opt; Chr "d"%char]; Lit "jd"; Lit "juris doctor" ].

Definition llm_pattern : regex :=
  degree [ Lit "llm";
           Seqs [Chr "l"%char; dot_opt; Chr "l"%char; dot_opt; Chr "m"%char] ].

Definition md_pattern : regex :=
  degree [ Seqs [Chr "m"%char; dot_opt; Chr "d"%char]; Lit "md"; Lit "medical doctor" ].

Definition degree_patterns : list (string * regex) :=
  [ ("has_bachelors", bachelors_pattern);
    ("has_masters", masters_pattern);
    ("has_phd", phd_pattern);
    ("has_jd", jd_pattern);
    ("has_llm", llm_pattern);
    ("has_md", md_pattern) ].

(** [bool(re.search(pattern, text_lower))] *)
Definition found (r : regex) (text_lower : string) : bool :=
  match search r text_lower with
  | Some _ => true
  | None => false
  end.

(** [check_education_level(text)] *)
Definition check_education_level (text : string) : gmap string bool :=
  if String.eqb text "" then ∅
  else
    let text_lower := " " +:+ Text.lower text +:+ " " in
    list_to_map (map (fun kp => (fst kp, found (snd kp) text_lower)) degree_patterns).

(** *** [clean_text] *)

(** At the text after a "<": the length of the longest run of characters
    other than ">" when that run is not empty and a ">" follows it, which is
    when [<[^>]+>] matches at that "<". *)
Fixpoint tag_body (s : list ascii) : option nat :=
  match s with
  | [] => None
  | c :: s' =>
      if Ascii.eqb c ">" then None
      else match s' with
           | c' :: _ =>
               if Ascii.eqb c' ">" then Some 1%nat
               else S <$> tag_body s'
           | [] => None
           end
  end.

(** [re.sub(r'<[^>]+>', '', text)]; [skip] counts the characters of the
    tag being removed that are still to pass. *)
Fixpoint strip_tags_from (skip : nat) (s : list ascii) : list ascii :=
  match s with
  | [] => []
  | c :: s' =>
      match skip with
      | S skip' => strip_tags_from skip' s'
      | O =>
          if Ascii.eqb c "<"
          then match tag_body s' with
               | Some n => strip_tags_from (S n) s'
               | None => c :: strip_tags_from 0 s'
               end
          else c :: strip_tags_from 0 s'
      end
  end.

Definition strip_tags (s : list ascii) : list ascii := strip_tags_from 0 s.

Definition is_lower_letter (c : ascii) : bool :=
  let n := nat_of_ascii c in ((97 <=? n) && (n <=? 122))%nat.

(** The characters [[a-z0-9\s\-]] keeps. *)
Definition kept_char (c : ascii) : bool :=
  is_lower_letter c || Text.is_digit c || Text.is_space c || Ascii.eqb c "-".

(** [re.sub(r'[^a-z0-9\s\-]', ' ', text)] *)
Definition blank_others (s : list ascii) : list ascii :=
  map (fun c => if kept_char c then c else " "%char) s.

(** [re.sub(r'\s+', ' ', text)]; [in_run] tells that the character before
    was white space. *)
Fixpoint squeeze (in_run : bool) (s : list ascii) : list ascii :=
  match s with
  | [] => []
  | c :: s' =>
      if Text.is_space c
      then if in_run then squeeze true s' else " "%char :: squeeze true s'
      else c :: squeeze false s'
  end.

Fixpoint lstrip (s : list ascii) : list ascii :=
  match s with
  | c :: s' => if Text.is_space c then lstrip s' else s
  | [] => []
  end.

Fixpoint rstrip (s : list ascii) : list ascii :=
  match s with
  | c :: s' =>
      match rstrip s' with
      | [] => if Text.is_space c then [] else [c]
      | r => c :: r
      end
  | [] => []
  end.

(** [text.strip()] *)
Definition strip (s : list ascii) : list ascii := rstrip (lstrip s).

(** The characters [clean_text] lets through: lower-case letters, digits,
    the hyphen and the blank. *)
Definition clean_char (c : ascii) : bool :=
  is_lower_letter c || Text.is_digit c || Ascii.eqb c "-" || Ascii.eqb c " ".

(** No blank follows a blank; [after_blank] tells that the character before
    the list was a blank. *)
Fixpoint single_blanks (after_blank : bool) (s : list ascii) : bool :=
  match s with
  | [] => true
  | c :: s' =>
      if Ascii.eqb c " " then negb after_blank && single_blanks true s'
      else single_blanks false s'
  end.

(** [clean_text(text)] *)
Definition clean_text (text : string) : string :=
  if String.eqb text "" then ""
  else
    let text := Text.lower text in
    let text := strip_tags (list_ascii_of_string text) in
    let text := blank_others text in
    string_of_list_ascii (strip (squeeze false text)).

(** *** [check_university_tier] *)

Definition university_tiers : list (string * list string) :=
  [ ("top_us_universities",
     [ "harvard"; "stanford"; "mit"; "yale"; "princeton"; "columbia";
       "ucla"; "berkeley"; "uchicago"; "university of chicago"; "penn";
       "upenn"; "university of pennsylvania"; "northwestern"; "johns hopkins";
       "duke"; "cornell"; "nyu"; "new york university" ]);
    ("m7_mba",
     [ "harvard business school"; "stanford graduate school of business";
       "wharton"; "kellogg"; "booth"; "columbia business school"; "mit sloan" ]) ].

(** [check_university_tier(text)] *)
Definition check_university_tier (text : string) : gmap string bool :=
  if String.eqb text "" then ∅
  else
    let text_lower := clean_text text in
    list_to_map
      (map (fun ts => (fst ts, existsb (fun school => Text.contains school text_lower)
                                  (snd ts)))
           university_tiers).

(** *** [parse_candidate_comprehensive] *)

Definition no_degree : gmap string bool :=
  list_to_map [ ("has_bachelors", false); ("has_masters", false); ("has_phd", false);
                ("has_jd", false); ("has_llm", false); ("has_md", false) ].

(** [x or y] on two strings. *)
Definition str_or (x y : string) : string := if String.eqb x "" then y else x.

(** [parse_candidate_comprehensive(candidate_data)], with the year of
    [datetime.now()]. In [{**a, **b}] the keys of [b] win. *)
Definition parse_candidate_comprehensive {R} (candidate_data : Candidate R)
  (current_year : Z) : Candidate R :=
  let text := str_or (get (full_text candidate_data) "")
                     (get (rerank_summary candidate_data) "") in
  if String.eqb text ""
  then {| cand_id := cand_id candidate_data;
          cand_name := cand_name candidate_data;
          full_text := full_text candidate_data;
          rerank_summary := rerank_summary candidate_data;
          years_experience := Some 0;
          flags := no_degree ∪ flags candidate_data;
          rrf_score := rrf_score candidate_data |}
  else
    let education_info := check_education_level text in
    let years := extract_years_experience text current_year in
    let school_tiers := check_university_tier text in
    {| cand_id := cand_id candidate_data;
       cand_name := cand_name candidate_data;
       full_text := full_text candidate_data;
       rerank_summary := rerank_summary candidate_data;
       years_experience := Some years;
       flags := school_tiers ∪ (education_info ∪ flags candidate_data);
       rrf_score := rrf_score candidate_data |}.

End Enrichment.

Module EnrichmentProps.

(** Degree words and the flag each one sets when it stands between
    blanks. *)
Definition degree_words : list (string * string) :=
  [ ("bachelor", "has_bachelors"); ("master", "has_masters"); ("mba", "has_masters");
    ("phd", "has_phd"); ("doctorate", "has_phd"); ("jd", "has_jd");
    ("juris doctor", "has_jd"); ("llm", "has_llm"); ("md", "has_md");
    ("medical doctor", "has_md") ].

(** The keys [check_education_level] sets. *)
Definition degree_keys : list string :=
  ["has_bachelors"; "has_masters"; "has_phd"; "has_jd"; "has_llm"; "has_md"].

(** The keys [check_university_tier] sets. *)
Definition tier_keys : list string := ["top_us_universities"; "m7_mba"].

End EnrichmentProps.

(** ** search_engine.py: the search as a whole, and the filter report *)

Module Pipeline.

Import FilterLog SearchEngine Enrichment.

(** A row of the retriever's response. *)
Record Row (R : Type) := {
  row_id : string;
  row_name : option string;
  row_full_text : option string;
  row_rerank_summary : option string;
  row_years_experience : option Z;
  row_dist : R
}.
Arguments row_id {R} _.
Arguments row_name {R} _.
Arguments row_full_text {R} _.
Arguments row_rerank_summary {R} _.
Arguments row_years_experience {R} _.
Arguments row_dist {R} _.

(** The keys of a job configuration that [search] reads. *)
Record JobConfig (R : Type) := {
  job_name : option string;                      (* 'name' *)
  hard_criteria : option HardCriteria;
  soft_criteria : option (SoftCriteria R)
}.
Arguments job_name {R} _.
Arguments hard_criteria {R} _.
Arguments soft_criteria {R} _.

Section Search.
Context {R : Type} `{Number R}.

(** The dict [vector_search] makes of a row, with the ['rrf_score']
    [enhanced_hybrid_search] adds: the similarity [1.0 - row.dist]. *)
Definition candidate_of_row (row : Row R) : Candidate R :=
  let vector_similarity := sub (lit 1) (row_dist row) in
  {| cand_id := row_id row;
     cand_name := row_name row;
     full_text := row_full_text row;
     rerank_summary := row_rerank_summary row;
     years_experience := row_years_experience row;
     flags := ∅;
     rrf_score := Some vector_similarity |}.

(** [enhanced_hybrid_search], given what the collaborators answer: the
    embedding of the expanded query ([None] when there is none) and the
    rows of the retriever ([None] when the query raises). *)
Definition enhanced_hybrid_search (query_vector : option (list R))
  (response : option (list (Row R))) : list (Candidate R) :=
  match query_vector with
  | None | Some [] => []
  | Some _ =>
      match response with
      | Some rows => map candidate_of_row rows
      | None => []
      end
  end.

(** [search(query, job_config, top_k)], given the candidates
    [enhanced_hybrid_search] returns, the year and the time of
    [datetime.now()] and the outcome of the write of the log. *)
Definition search (filter_logger : FilterLogger) (query : string)
  (job_config : JobConfig R) (top_k : Z) (candidates_raw : list (Candidate R))
  (current_year : Z) (now : string) (w : write_outcome)
  : list string * FilterLogger :=
  let name := get (job_name job_config) "N/A" in
  match candidates_raw with
  | [] => ([], filter_logger)
  | _ =>
      let processed_candidates :=
        map (fun c => parse_candidate_comprehensive c current_year) candidates_raw in
      search_processed filter_logger name query processed_candidates
        (hard_criteria job_config) (soft_criteria job_config) top_k now w
  end.

(** *** [generate_filter_report] *)

Record Recommendation := {
  rec_job_config : string;             (* 'job_config' *)
  issue : string;
  rec_filter_rate : R;                 (* 'filter_rate' *)
  recommendation : string
}.

(** The keys of a dict in the order they were first set. *)
Fixpoint first_seen (seen : list string) (keys : list string) : list string :=
  match keys with
  | [] => []
  | k :: keys' =>
      if bool_decide (k ∈ seen) then first_seen seen keys'
      else k :: first_seen (k :: seen) keys'
  end.

(** The items of [stats["job_performance"]] in the order of the dict: the
    jobs in the order of their first session. *)
Definition job_items (self : FilterLogger) (stats : FilterStats R)
  : list (string * JobPerformance R) :=
  omap (fun job => (fun jp => (job, jp)) <$> job_performance stats !! job)
       (first_seen [] (map job_config_name (all_sessions self))).

(** The body of the loop over the jobs. *)
Definition recommend (job_name : string) (job_stats : JobPerformance R)
  : option Recommendation :=
  let filter_rate := jp_filter_rate job_stats in
  if num_ltb (lit 0.8) filter_rate
  then Some {| rec_job_config := job_name; issue := "High filter rate";
               rec_filter_rate := filter_rate;
               recommendation :=
                 "Consider relaxing hard criteria - too many candidates being filtered" |}
  else if num_ltb filter_rate (lit 0.1)
  then Some {| rec_job_config := job_name; issue := "Low filter rate";
               rec_filter_rate := filter_rate;
               recommendation :=
                 "Consider tightening hard criteria - filters may be too permissive" |}
  else None.

Record Report := {
  total_sessions_analyzed : Z;
  executive_summary : OverallStats R;
  filter_failure_analysis : gmap string Z;
  job_config_performance : gmap string (JobPerformance R);
  recommendations : list Recommendation
}.

(** [generate_filter_report()]; [None] is the empty dict returned when
    there are no statistics. Whether the report file can be written does not
    change what is returned. *)
Definition generate_filter_report (filter_logger : FilterLogger) : option Report :=
  match get_filter_stats filter_logger with
  | None => None
  | Some stats =>
      Some {| total_sessions_analyzed := len (all_sessions filter_logger);
              executive_summary := overall_stats stats;
              filter_failure_analysis := failure_breakdown stats;
              job_config_performance := job_performance stats;
              recommendations :=
                omap (fun item => recommend (fst item) (snd item))
                     (job_items filter_logger stats) |}
  end.

End Search.

End Pipeline.

(** ** final_submission.py *)

Module Submission.

(** [not candidate_id or ... or len(candidate_id) < 10] *)
Definition invalid_id (candidate_id : string) : bool :=
  String.eqb candidate_id "" || (String.length candidate_id <? 10)%nat.

(** The loop over the candidates of one configuration: [false] when it
    returns [False]. *)
Fixpoint check_candidates (candidates : list string) : bool :=
  match candidates with
  | [] => true
  | candidate_id :: candidates' =>
      if invalid_id candidate_id then false else check_candidates candidates'
  end.

(** [validate_final_submission(candidate_data)]: the items of the dict in
    their order. The configurations missing from it and the lists shorter
    than [FINAL_CANDIDATES] are only logged. *)
Fixpoint validate_final_submission (candidate_data : list (string * list string))
  : bool :=
  match candidate_data with
  | [] => true
  | (config_name, candidates) :: candidate_data' =>
      if check_candidates candidates then validate_final_submission candidate_data'
      else false
  end.

End Submission.

Module PipelineProps.

Import FilterLog.

(** Whether a job of [total] candidates of which [passed] passed is
    reported, and how: over 80% filtered out, or under 10%. *)
Definition verdict (total passed : Z) : option string :=
  if (0 <? total) && (5 * passed <? total) then Some "High filter rate"
  else if (total <=? 0) || (10 * (total - passed) <? total)
       then Some "Low filter rate"
       else None.

(** The sum of [g] over the values of a map. *)
Definition map_sum {A} (g : A -> Z) (m : gmap string A) : Z :=
  map_fold (fun _ v acc => g v + acc) 0 m.

End PipelineProps.

(** Boolean comparisons on [Z] to propositions, then [lia]. *)
Ltac zify_bool :=
  repeat rewrite ?andb_true_iff, ?orb_true_iff, ?andb_false_iff, ?orb_false_iff,
    ?negb_true_iff, ?negb_false_iff,
    ?Z.ltb_lt, ?Z.ltb_ge, ?Z.leb_le, ?Z.leb_gt, ?Z.eqb_eq, ?Z.eqb_neq,
    ?Z.gtb_ltb, ?Z.geb_leb in *.

(** The operations of [Number] at [Q], as those of [Q]. *)
Ltac q_ops :=
  change (@add Q Q_Number) with Qplus in *;
  change (@lit Q Q_Number) with (fun q : Q => q) in *;
  cbv beta in *.

Section DateRanges.

Import Utils Spec.

Lemma last_snoc {A} (l : list A) (x : A) :
  List.last (map Some (l ++ [x])) None = Some x.
Proof.
  induction l as [|y l IH]; [reflexivity|].
  simpl. destruct (map Some (l ++ [x])) eqn:E; [|exact IH].
  destruct l; discriminate.
Qed.

Lemma merge_step_snoc (done : list (Z * Z)) (cur r : Z * Z) :
  merge_step (done ++ [cur]) r =
  if fst r <=? snd cur then done ++ [(fst cur, Z.max (snd cur) (snd r))]
  else (done ++ [cur]) ++ [r].
Proof.
  unfold merge_step. rewrite last_snoc, removelast_last.
  destruct (Z.ltb_spec (snd cur) (fst r)), (Z.leb_spec (fst r) (snd cur));
    try reflexivity; lia.
Qed.

Lemma merge_ranges_sweep (l : list (Z * Z)) :
  forall done cur, fold_left merge_step l (done ++ [cur]) = done ++ sweep cur l.
Proof.
  induction l as [|r l IH]; intros done cur; [reflexivity|].
  cbn [fold_left sweep]. rewrite merge_step_snoc.
  destruct (fst r <=? snd cur).
  - apply IH.
  - rewrite IH, <- app_assoc. reflexivity.
Qed.

Lemma merge_ranges_merged_intervals (l : list (Z * Z)) :
  merge_ranges l = merged_intervals l.
Proof.
  destruct l as [|r l]; [reflexivity|].
  unfold merge_ranges. cbn [fold_left merged_intervals].
  change (merge_step [] r) with ([] ++ [r]).
  apply (merge_ranges_sweep l [] r).
Qed.

Lemma sum_spans_acc (l : list (Z * Z)) :
  forall acc, fold_left (fun a r => a + (snd r - fst r)) l acc = acc + total_span l.
Proof.
  induction l as [|r l IH]; intros acc; [cbn; lia|].
  change (total_span (r :: l)) with ((snd r - fst r) + total_span l).
  cbn [fold_left]. rewrite IH. lia.
Qed.

Lemma sum_spans_total_span (l : list (Z * Z)) : sum_spans l = total_span l.
Proof. unfold sum_spans. rewrite sum_spans_acc. lia. Qed.

Lemma range_leb_total (a b : Z * Z) : range_leb a b = false -> range_leb b a = true.
Proof. unfold range_leb. zify_bool. lia. Qed.

Lemma range_leb_by_start (a b : Z * Z) : range_leb a b = true -> by_start a b.
Proof. unfold range_leb, by_start. zify_bool. lia. Qed.

Lemma insert_range_perm (r : Z * Z) (l : list (Z * Z)) :
  Permutation (r :: l) (insert_range r l).
Proof.
  induction l as [|x l IH]; cbn [insert_range]; [reflexivity|].
  destruct (range_leb r x); [reflexivity|].
  rewrite perm_swap. apply perm_skip, IH.
Qed.

Lemma sort_ranges_perm (l : list (Z * Z)) : Permutation l (sort_ranges l).
Proof.
  induction l as [|r l IH]; [reflexivity|].
  cbn. rewrite <- insert_range_perm. apply perm_skip, IH.
Qed.

Lemma insert_range_sorted (r : Z * Z) (l : list (Z * Z)) :
  StronglySorted by_start l -> StronglySorted by_start (insert_range r l).
Proof.
  induction 1 as [|x l Hs IH Hx]; cbn [insert_range].
  - repeat constructor.
  - destruct (range_leb r x) eqn:E.
    + constructor; [constructor; assumption|].
      apply range_leb_by_start in E. constructor; [exact E|].
      eapply Forall_impl; [exact Hx|]. unfold by_start in *. intros; lia.
    + constructor; [exact IH|].
      apply range_leb_total, range_leb_by_start in E.
      rewrite <- insert_range_perm. constructor; assumption.
Qed.

Lemma sort_ranges_sorted (l : list (Z * Z)) : StronglySorted by_start (sort_ranges l).
Proof.
  induction l as [|r l IH]; [constructor|]. apply insert_range_sorted, IH.
Qed.

Lemma collect_ranges_filter (text : string) (current_year : Z) :
  collect_ranges text current_year =
  List.filter (valid_range current_year)
    (omap (years_of_match current_year) (Regex.finditer date_pattern text)).
Proof.
  unfold collect_ranges.
  induction (Regex.finditer date_pattern text) as [|m ms IH]; [reflexivity|].
  cbn [omap list_omap]. unfold range_of_match at 1.
  destruct (years_of_match current_year m) as [r|]; [|exact IH].
  cbn [List.filter]. destruct (valid_range current_year r); [f_equal|]; exact IH.
Qed.

(** C3: the date-range years of a text are computed from the ranges that
    satisfy [1980 <= start < end <= current_year], sorted by start year,
    merged by the sweep that extends the last interval when the next range
    starts at or before its end, as the sum of [end - start] over the
    merged intervals; 2010-2015 with 2014-2018 gives the one interval
    2010-2018 and 8 years, 2005-2008 with 2015-2017 gives 5 years. *)
Theorem C3_date_range_years :
  (forall (text : string) (current_year : Z),
      let valid :=
        List.filter (valid_range current_year)
          (omap (years_of_match current_year) (Regex.finditer date_pattern text)) in
      let sorted := sort_ranges valid in
      Forall (fun r => 1980 <= fst r < snd r /\ snd r <= current_year) valid /\
      Permutation valid sorted /\
      StronglySorted by_start sorted /\
      merge_ranges sorted = merged_intervals sorted /\
      _calculate_experience_from_dates text current_year
      = total_span (merged_intervals sorted)) /\
  merge_ranges (sort_ranges [(2010, 2015); (2014, 2018)]) = [(2010, 2018)] /\
  _calculate_experience_from_dates "acme 2010-2015, globex 2014-2018" 2025 = 8 /\
  merge_ranges (sort_ranges [(2015, 2017); (2005, 2008)]) = [(2005, 2008); (2015, 2017)] /\
  _calculate_experience_from_dates "initech 2015-2017; before that hooli 2005-2008" 2025
  = 3 + 2.
Proof.
  split; [|repeat split; vm_compute; reflexivity].
  intros text current_year valid sorted. repeat split.
  - apply List.Forall_forall. intros r Hr.
    apply filter_In in Hr as [_ Hr]. unfold valid_range in Hr. zify_bool. lia.
  - apply sort_ranges_perm.
  - apply sort_ranges_sorted.
  - apply merge_ranges_merged_intervals.
  - unfold _calculate_experience_from_dates.
    rewrite collect_ranges_filter. fold valid. fold sorted.
    destruct sorted; [reflexivity|].
    rewrite sum_spans_total_span, merge_ranges_merged_intervals. reflexivity.
Qed.

Lemma or_zero (y : Z) : (if y =? 0 then 0 else y) = y.
Proof. destruct (Z.eqb_spec y 0); congruence. Qed.

(** C2: the years of experience of a text are
    [min(max(explicit_years, date_range_years), 50)]; a text with
    "10 years of experience" and a three-year date range gives 10, and a
    total above 50 gives 50. *)
Theorem C2_extract_years_experience :
  (forall (text : string) (current_year : Z),
      extract_years_experience text current_year
      = Z.min (Z.max (explicit_years text) (date_range_years text current_year)) 50) /\
  (explicit_years "10 years of experience. Acme Corp 2015-2018" = 10 /\
   date_range_years "10 years of experience. Acme Corp 2015-2018" 2025 = 3 /\
   extract_years_experience "10 years of experience. Acme Corp 2015-2018" 2025 = 10) /\
  (explicit_years "60 years of experience" = 60 /\
   extract_years_experience "60 years of experience" 2025 = 50).
Proof.
  split; [|repeat split; vm_compute; reflexivity].
  intros text current_year. unfold extract_years_experience.
  destruct (String.eqb_spec text "") as [->|_]; [reflexivity|].
  rewrite or_zero. unfold explicit_years, date_range_years.
  destruct (Regex.search explicit_pattern (Text.lower text)) as [m|]; [|reflexivity].
  destruct (Regex.group 1 m ≫= Text.int_of_digits); reflexivity.
Qed.

End DateRanges.

(** ** Hard filters ([search_engine.py]) *)

Section HardFilters.

Import FilterLog SearchEngine Spec.
Context {R : Type} `{Number R}.

Lemma fold_append_filter {A} (p : A -> bool) (l : list A) :
  forall acc,
    fold_left (fun acc x => if p x then acc ++ [x] else acc) l acc
    = acc ++ List.filter p l.
Proof.
  induction l as [|x l IH]; intros acc; cbn [fold_left List.filter].
  - symmetry. apply app_nil_r.
  - rewrite IH. destruct (p x); [|reflexivity].
    rewrite <- app_assoc. reflexivity.
Qed.

Lemma filter_all {A} (p : A -> bool) (l : list A) :
  (forall x, p x = true) -> List.filter p l = l.
Proof.
  intros Hp. induction l as [|x l IH]; [reflexivity|].
  cbn. rewrite Hp, IH. reflexivity.
Qed.

Lemma flag_holds (c : Candidate R) (d : string) :
  flag c d = true <-> holds_flag c d.
Proof.
  unfold flag, holds_flag.
  destruct (flags c !! d) as [[|]|]; cbn; split; congruence.
Qed.

Lemma education_loop_flags (c : Candidate R) (items : list edu_item) :
  education_loop c items = true <->
  forall item, In item items ->
    match item with
    | any_of required => exists d, In d required /\ flag c d = true
    | degree_flag degree required => required = true -> flag c degree = true
    end.
Proof.
  induction items as [|item items IH].
  - split; [intros _ item []|reflexivity].
  - cbn [education_loop]. destruct item as [required|degree required].
    + destruct (existsb (flag c) required) eqn:E; cbn [negb].
      * rewrite IH. apply existsb_exists in E.
        split.
        -- intros Hall item [<-|Hin]; [exact E|exact (Hall item Hin)].
        -- intros Hall item Hin. apply Hall. right. exact Hin.
      * split; [discriminate|]. intros Hall.
        destruct (Hall (any_of required) (or_introl eq_refl)) as [d Hd].
        assert (existsb (flag c) required = true) by (apply existsb_exists; eauto).
        congruence.
    + destruct required, (flag c degree) eqn:E; cbn [andb negb];
        try (rewrite IH; split;
             [intros Hall item [<-|Hin]; [intros; congruence|exact (Hall item Hin)]
             |intros Hall item Hin; apply Hall; right; exact Hin]).
      split; [discriminate|]. intros Hall.
      specialize (Hall (degree_flag degree true) (or_introl eq_refl) eq_refl).
      congruence.
Qed.

Lemma education_loop_spec (c : Candidate R) (items : list edu_item) :
  education_loop c items = true <->
  forall item, In item items ->
    match item with
    | any_of required => exists d, In d required /\ holds_flag c d
    | degree_flag degree required => required = true -> holds_flag c degree
    end.
Proof.
  rewrite education_loop_flags.
  split; intros Hall item Hin; specialize (Hall item Hin);
    destruct item as [required|degree required].
  - destruct Hall as (d & Hd & Hf). exists d. split; [exact Hd|].
    apply flag_holds. exact Hf.
  - intros Hr. apply flag_holds. exact (Hall Hr).
  - destruct Hall as (d & Hd & Hf). exists d. split; [exact Hd|].
    apply flag_holds. exact Hf.
  - intros Hr. apply flag_holds. exact (Hall Hr).
Qed.

Lemma passes_hard_filters_spec (hc : HardCriteria) (c : Candidate R) :
  passes_hard_filters hc c = true <->
  experience_ok hc c /\ education_ok hc c /\ keywords_ok hc c.
Proof.
  unfold passes_hard_filters, experience_ok, education_ok, keywords_ok.
  fold (text_blob c).
  set (years := get (years_experience c) 0).
  assert (Hedu : forall items : list edu_item,
             match items with
             | [] => true
             | _ => if negb (education_loop c items) then false else true
             end = education_loop c items).
  { intros [|i l]; [reflexivity|]. destruct (education_loop c (i :: l)); reflexivity. }
  assert (Hkw : forall kws : list string,
             match kws with
             | [] => true
             | _ => if negb (forallb (fun kw => Text.contains (Text.lower kw) (text_blob c)) kws)
                    then false else true
             end = forallb (fun kw => Text.contains (Text.lower kw) (text_blob c)) kws).
  { intros [|k l]; [reflexivity|].
    destruct (forallb _ (k :: l)); reflexivity. }
  destruct (min_years_experience hc) as [mn|], (max_years_experience hc) as [mx|];
    repeat match goal with
      | |- context [years <? ?m] => destruct (Z.ltb_spec years m)
      | |- context [years >? ?m] => rewrite (Z.gtb_ltb years m); destruct (Z.ltb_spec m years)
      end; cbn [negb];
    try (split; [discriminate|];
         intros [[Hmin Hmax] _];
         try specialize (Hmin _ eq_refl); try specialize (Hmax _ eq_refl); lia).
  all: rewrite Hedu; destruct (education_loop c _) eqn:Eedu; cbn [negb];
    [|split; [discriminate|]; intros (_ & Hed & _);
      pose proof (proj2 (education_loop_spec _ _) Hed); congruence].
  all: rewrite Hkw; destruct (forallb _ _) eqn:Ekw; cbn [negb].
  all: pose proof (proj1 (education_loop_spec _ _) Eedu) as Hedu'.
  all: try (split; [intros _|reflexivity]; split; [|split]; [|exact Hedu'|];
            [split; intros m Hm; inversion Hm; subst; lia
            |rewrite forallb_forall in Ekw; exact Ekw]).
  all: split; [discriminate|]; intros (_ & _ & Hk);
    assert (forallb (fun kw => Text.contains (Text.lower kw) (text_blob c))
              (get (required_keywords hc) []) = true)
      by (apply forallb_forall; exact Hk); congruence.
Qed.

(** C4, amended: without hard criteria, or with an empty dict of them,
    [apply_hard_filters] returns the candidates as they are; otherwise the
    result is the candidates, in their order, that pass the experience
    bounds, the required education (a flag is held when the record has it
    with the value true) and the required keywords, each one, lowered, a
    substring of the lowered full text and summary joined by one blank. *)
Theorem C4_apply_hard_filters (candidates : list (Candidate R)) :
  apply_hard_filters candidates None = candidates /\
  apply_hard_filters candidates (Some no_criteria) = candidates /\
  forall hc : HardCriteria,
    apply_hard_filters candidates (Some hc)
    = List.filter (passes_hard_filters hc) candidates /\
    forall c : Candidate R,
      passes_hard_filters hc c = true <->
      experience_ok hc c /\ education_ok hc c /\ keywords_ok hc c.
Proof.
  split; [reflexivity|]. split; [reflexivity|].
  intros hc. split; [|apply passes_hard_filters_spec].
  unfold apply_hard_filters.
  destruct (hard_falsy (Some hc)) eqn:E.
  - symmetry. apply filter_all. intros c.
    unfold hard_falsy in E. unfold passes_hard_filters.
    destruct (min_years_experience hc), (max_years_experience hc),
      (required_education hc), (required_keywords hc); try discriminate.
    reflexivity.
  - rewrite fold_append_filter. reflexivity.
Qed.

End HardFilters.

Section HardFilterExamples.

Import SearchEngine Spec Examples.

(** C4, as the claim gives it: the keywords are not searched in the
    concatenation of the full text and the summary. With the full text "tax"
    and the summary "law", the keyword "taxlaw" is in the concatenation and
    the candidate passes the three checks of the claim, yet the code drops
    it; the keyword "tax law" is not in the concatenation, yet the code keeps
    the candidate. *)
Lemma C4_keywords_not_in_concatenation :
  (experience_ok (keyword_required "taxlaw") tax_law /\
   education_ok (keyword_required "taxlaw") tax_law /\
   keywords_in_concatenation (keyword_required "taxlaw") tax_law /\
   apply_hard_filters [tax_law] (Some (keyword_required "taxlaw")) = []) /\
  (~ keywords_in_concatenation (keyword_required "tax law") tax_law /\
   apply_hard_filters [tax_law] (Some (keyword_required "tax law")) = [tax_law]).
Proof.
  split; [split; [|split; [|split]]|split].
  - split; intros m Hm; discriminate Hm.
  - intros item [].
  - intros kw [<-|[]]. vm_compute. reflexivity.
  - vm_compute. reflexivity.
  - intros Hall. specialize (Hall "tax law" (or_introl eq_refl)).
    vm_compute in Hall. discriminate Hall.
  - vm_compute. reflexivity.
Qed.

End HardFilterExamples.

(** ** The filter stage of [search] and the failure log *)

Section FilterStage.

Import FilterLog SearchEngine Spec Examples.

(** C1, on the code: [apply_hard_filters] never calls
    [log_filter_failure]. The session [search] closes around it has an empty
    failure list whatever the candidates and the criteria; the candidate
    with 2 years against a minimum of 3 is dropped and the closed session
    records 1 candidate, 0 survivors and no [FilterFailure]. *)
Theorem C1_filter_stage_logs_no_failure :
  (forall (R : Type) (filter_logger : FilterLogger) (job_name query : string)
          (candidates : list (Candidate R)) (hard_criteria : option HardCriteria)
          (now : string) (w : write_outcome),
      all_sessions (snd (filter_stage filter_logger job_name query candidates
                           hard_criteria now w))
      = all_sessions filter_logger ++
        [{| job_config_name := job_name; query := query;
            total_candidates := len candidates;
            candidates_after_filtering := len (apply_hard_filters candidates hard_criteria);
            filter_failures := [];
            session_timestamp := now |}]) /\
  filter_stage (init NoFile) "Tax Lawyer" "tax attorney" [two_years] min_three
               "2025-01-01T00:00:00" Written
  = ([], {| current_session := None;
            all_sessions := [{| job_config_name := "Tax Lawyer"; query := "tax attorney";
                                total_candidates := 1; candidates_after_filtering := 0;
                                filter_failures := [];
                                session_timestamp := "2025-01-01T00:00:00" |}];
            log_file := FileWith [{| job_config_name := "Tax Lawyer";
                                     query := "tax attorney";
                                     total_candidates := 1;
                                     candidates_after_filtering := 0;
                                     filter_failures := [];
                                     session_timestamp := "2025-01-01T00:00:00" |}] |}).
Proof.
  split; [|reflexivity].
  intros. unfold filter_stage, end_session, start_session, save_to_file.
  cbn. destruct w; reflexivity.
Qed.

End FilterStage.

(** ** Normalization and ranking ([utils.py], [search_engine.py]) *)

Section Normalization.

Import Utils SearchEngine.
Local Open Scope Q_scope.

Lemma Q_ltb_spec (x y : Q) : num_ltb x y = true <-> x < y.
Proof.
  cbn. rewrite negb_true_iff. split.
  - intros E. apply Qnot_le_lt. intros Hle. apply Qle_bool_iff in Hle. congruence.
  - intros Hlt. destruct (Qle_bool y x) eqn:E; [|reflexivity].
    apply Qle_bool_iff in E. exfalso. exact (Qlt_not_le _ _ Hlt E).
Qed.

Lemma Q_ltb_false (x y : Q) : num_ltb x y = false <-> y <= x.
Proof.
  cbn. rewrite negb_false_iff. apply Qle_bool_iff.
Qed.

Lemma py_min_spec (xs : list Q) :
  forall x, In (py_min x xs) (x :: xs) /\ Forall (fun y => py_min x xs <= y) (x :: xs).
Proof.
  induction xs as [|y xs IH]; intros x.
  - split; [left; reflexivity|]. repeat constructor. apply Qle_refl.
  - change (py_min x (y :: xs)) with (py_min (if num_ltb y x then y else x) xs).
    destruct (num_ltb y x) eqn:E.
    + destruct (IH y) as [Hin Hall]. split.
      * right. exact Hin.
      * inversion Hall as [|? ? Hy Hxs]; subst.
        constructor; [|constructor; assumption].
        apply Q_ltb_spec in E. apply Qlt_le_weak. eapply Qle_lt_trans; eassumption.
    + destruct (IH x) as [Hin Hall]. split.
      * destruct Hin as [<-|Hin]; [left; reflexivity|right; right; exact Hin].
      * inversion Hall as [|? ? Hx Hxs]; subst.
        constructor; [assumption|constructor; [|assumption]].
        apply Q_ltb_false in E. eapply Qle_trans; eassumption.
Qed.

Lemma py_max_spec (xs : list Q) :
  forall x, In (py_max x xs) (x :: xs) /\ Forall (fun y => y <= py_max x xs) (x :: xs).
Proof.
  induction xs as [|y xs IH]; intros x.
  - split; [left; reflexivity|]. repeat constructor. apply Qle_refl.
  - change (py_max x (y :: xs)) with (py_max (if num_ltb x y then y else x) xs).
    destruct (num_ltb x y) eqn:E.
    + destruct (IH y) as [Hin Hall]. split.
      * right. exact Hin.
      * inversion Hall as [|? ? Hy Hxs]; subst.
        constructor; [|constructor; assumption].
        apply Q_ltb_spec in E. apply Qlt_le_weak. eapply Qlt_le_trans; eassumption.
    + destruct (IH x) as [Hin Hall]. split.
      * destruct Hin as [<-|Hin]; [left; reflexivity|right; right; exact Hin].
      * inversion Hall as [|? ? Hx Hxs]; subst.
        constructor; [assumption|constructor; [|assumption]].
        apply Q_ltb_false in E. eapply Qle_trans; eassumption.
Qed.

Lemma normalize_score_equal (s mn mx : Q) :
  mx == mn -> normalize_score s mn mx = 0.5.
Proof.
  intros E. unfold normalize_score. cbn.
  apply Qeq_bool_iff in E. rewrite E. reflexivity.
Qed.

Lemma normalize_score_formula (s mn mx : Q) :
  ~ mx == mn -> normalize_score s mn mx = (s - mn) / (mx - mn).
Proof.
  intros E. unfold normalize_score. cbn.
  destruct (Qeq_bool mx mn) eqn:B; [|reflexivity].
  apply Qeq_bool_iff in B. contradiction.
Qed.

Lemma normalize_score_range (s mn mx : Q) :
  mn <= s -> s <= mx -> 0 <= normalize_score s mn mx <= 1.
Proof.
  intros Hlo Hhi. unfold normalize_score. cbn.
  destruct (Qeq_bool mx mn) eqn:B; [split; discriminate|].
  assert (Hd : 0 < mx - mn).
  { apply Qeq_bool_neq in B.
    assert (mn <= mx) by (eapply Qle_trans; eassumption).
    destruct (Qle_lt_or_eq _ _ H) as [Hlt|Heq]; [lra|].
    exfalso. apply B. symmetry. exact Heq. }
  split.
  - apply Qle_shift_div_l; [exact Hd|]. lra.
  - apply Qle_shift_div_r; [exact Hd|]. lra.
Qed.

Lemma normalize_score_mono (s1 s2 mn mx : Q) :
  mn <= mx -> s1 <= s2 -> normalize_score s1 mn mx <= normalize_score s2 mn mx.
Proof.
  intros Hmm Hs. unfold normalize_score. cbn.
  destruct (Qeq_bool mx mn) eqn:B; [apply Qle_refl|].
  assert (Hd : 0 < mx - mn).
  { apply Qeq_bool_neq in B.
    destruct (Qle_lt_or_eq _ _ Hmm) as [Hlt|Heq]; [lra|].
    exfalso. apply B. symmetry. exact Heq. }
  unfold Qdiv. apply Qmult_le_compat_r; [lra|].
  apply Qlt_le_weak, Qinv_lt_0_compat, Hd.
Qed.

End Normalization.

Section Ranking.

Import Utils SearchEngine Spec Examples.
Local Open Scope Q_scope.

Lemma insert_desc_perm {A} (x : A * Q) (l : list (A * Q)) :
  Permutation (x :: l) (insert_desc x l).
Proof.
  induction l as [|y l IH]; cbn [insert_desc]; [reflexivity|].
  destruct (num_ltb (snd x) (snd y)); [|reflexivity].
  rewrite perm_swap. apply perm_skip, IH.
Qed.

Lemma sort_desc_perm {A} (l : list (A * Q)) : Permutation l (sort_desc l).
Proof.
  induction l as [|x l IH]; [reflexivity|].
  cbn. rewrite <- insert_desc_perm. apply perm_skip, IH.
Qed.

Lemma insert_desc_sorted {A} (x : A * Q) (l : list (A * Q)) :
  StronglySorted by_score_desc l -> StronglySorted by_score_desc (insert_desc x l).
Proof.
  induction 1 as [|y l Hs IH Hy]; cbn [insert_desc].
  - repeat constructor.
  - destruct (num_ltb (snd x) (snd y)) eqn:E.
    + constructor; [exact IH|].
      rewrite <- insert_desc_perm. constructor; [|exact Hy].
      apply Q_ltb_spec in E. apply Qlt_le_weak, E.
    + apply Q_ltb_false in E.
      constructor; [constructor; assumption|].
      constructor; [exact E|].
      eapply Forall_impl; [exact Hy|]. unfold by_score_desc. intros z Hz.
      eapply Qle_trans; eassumption.
Qed.

Lemma sort_desc_sorted {A} (l : list (A * Q)) : StronglySorted by_score_desc (sort_desc l).
Proof.
  induction l as [|x l IH]; [constructor|]. apply insert_desc_sorted, IH.
Qed.

Lemma insert_desc_with_score {A} (q : Q) (x : A * Q) (l : list (A * Q)) :
  with_score q (insert_desc x l) = with_score q (x :: l).
Proof.
  unfold with_score.
  induction l as [|y l IH]; cbn [insert_desc]; [reflexivity|].
  destruct (num_ltb (snd x) (snd y)) eqn:E; [|reflexivity].
  cbn [List.filter] in *. rewrite IH.
  destruct (Qeq_bool (snd x) q) eqn:Ex; [|reflexivity].
  destruct (Qeq_bool (snd y) q) eqn:Ey; [|reflexivity].
  exfalso. apply Q_ltb_spec in E. apply Qeq_bool_iff in Ex, Ey.
  rewrite Ex, Ey in E. exact (Qlt_irrefl _ E).
Qed.

Lemma sort_desc_stable {A} (q : Q) (l : list (A * Q)) :
  with_score q (sort_desc l) = with_score q l.
Proof.
  induction l as [|x l IH]; [reflexivity|].
  cbn [sort_desc fold_right]. rewrite insert_desc_with_score.
  unfold with_score in *. cbn [List.filter]. fold (sort_desc l). rewrite IH. reflexivity.
Qed.

Lemma slice_to_nat {A} (l : list A) (k : nat) :
  slice_to l (Z.of_nat k) = firstn k l.
Proof.
  unfold slice_to. destruct (Z.ltb_spec (Z.of_nat k) 0); [lia|].
  rewrite Nat2Z.id. reflexivity.
Qed.

Lemma with_normalized_scores_length (scored : list (Candidate Q * Q)) :
  length (with_normalized_scores scored) = length scored.
Proof.
  unfold with_normalized_scores.
  destruct scored as [|x l]; [reflexivity|]. cbn [map length]. f_equal. apply length_map.
Qed.

Lemma ranked_length (cands : list (Candidate Q)) sc :
  length (ranked cands sc) = length cands.
Proof.
  unfold ranked. rewrite <- (Permutation_length (sort_desc_perm _)).
  rewrite with_normalized_scores_length. unfold with_final_scores.
  apply length_map.
Qed.

Lemma rank_stage_slice (cands : list (Candidate Q)) sc (top_k : Z) :
  rank_stage cands sc top_k
  = map (fun cn => cand_id (fst cn)) (slice_to (ranked cands sc) top_k).
Proof.
  destruct cands; [|reflexivity].
  unfold rank_stage, slice_to. cbn. destruct (top_k <? 0)%Z; rewrite firstn_nil; reflexivity.
Qed.

End Ranking.

Section RankingClaims.

Import Utils SearchEngine Spec Examples Binary64.
Local Open Scope Q_scope.

(** C5: over a non-empty set of survivors every normalized score is
    [(final_score - min) / (max - min)] and lies in [0, 1]; when the maximum
    equals the minimum, a single survivor included, every normalized score is
    exactly 0.5; and a higher final score never gets a lower normalized
    score. *)
Theorem C5_normalization (c0 : Candidate Q) (f0 : Q) (others : list (Candidate Q * Q)) :
  let scored := (c0, f0) :: others in
  let min_s := py_min f0 (map snd others) in
  let max_s := py_max f0 (map snd others) in
  with_normalized_scores scored
  = map (fun cf => (fst cf, normalize_score (snd cf) min_s max_s)) scored /\
  (In min_s (map snd scored) /\ In max_s (map snd scored) /\
   Forall (fun cf => min_s <= snd cf <= max_s) scored) /\
  Forall (fun cn => 0 <= snd cn <= 1) (with_normalized_scores scored) /\
  (~ max_s == min_s ->
   forall f, normalize_score f min_s max_s = (f - min_s) / (max_s - min_s)) /\
  (max_s == min_s ->
   Forall (fun cn => snd cn = 0.5) (with_normalized_scores scored)) /\
  with_normalized_scores [(c0, f0)] = [(c0, 0.5)] /\
  (forall f1 f2, f1 <= f2 ->
                 normalize_score f1 min_s max_s <= normalize_score f2 min_s max_s).
Proof.
  intros scored min_s max_s.
  destruct (py_min_spec (map snd others) f0) as [Hmin_in Hmin].
  destruct (py_max_spec (map snd others) f0) as [Hmax_in Hmax].
  fold min_s in Hmin_in, Hmin. fold max_s in Hmax_in, Hmax.
  assert (Hbounds : Forall (fun cf : Candidate Q * Q => min_s <= snd cf <= max_s) scored).
  { apply List.Forall_forall. intros cf Hcf.
    assert (Hin : In (snd cf) (f0 :: map snd others)) by (apply (in_map snd) in Hcf; exact Hcf).
    rewrite List.Forall_forall in Hmin, Hmax. split; [apply Hmin|apply Hmax]; exact Hin. }
  assert (Hmm : min_s <= max_s).
  { inversion Hbounds as [|? ? [H1 H2] _]; subst. eapply Qle_trans; eassumption. }
  split; [reflexivity|]. split; [repeat split; assumption|].
  split; [|split; [|split; [|split]]].
  - change (with_normalized_scores scored)
      with (map (fun cf : Candidate Q * Q =>
                   (fst cf, normalize_score (snd cf) min_s max_s)) scored).
    apply Forall_map. eapply Forall_impl; [exact Hbounds|].
    intros cf [Hlo Hhi]. cbn [snd]. apply normalize_score_range; assumption.
  - intros Hne f. apply normalize_score_formula, Hne.
  - intros Heq.
    change (with_normalized_scores scored)
      with (map (fun cf : Candidate Q * Q =>
                   (fst cf, normalize_score (snd cf) min_s max_s)) scored).
    apply Forall_map. apply List.Forall_forall. intros cf _. cbn [snd].
    apply normalize_score_equal, Heq.
  - cbn. unfold normalize_score. cbn. rewrite Qeq_bool_refl. reflexivity.
  - intros f1 f2. apply normalize_score_mono, Hmm.
Qed.

(** C5 on an instance: three survivors of final scores 0.36, 0.2 and 3.08. *)
Lemma C5_normalization_witness :
  Forall (fun cn => 0 <= snd cn <= 1)
    (with_normalized_scores (R:=Q)
       [(retrieved "c1" "Java developer" 0.9, 0.36);
        (retrieved "c2" "Go developer" 0.5, 0.2);
        (retrieved "c3" "Rust developer" 0.2, 3.08)]).
Proof.
  exact (proj1 (proj2 (proj2
    (C5_normalization (retrieved "c1" "Java developer" 0.9) 0.36
       [(retrieved "c2" "Go developer" 0.5, 0.2); (retrieved "c3" "Rust developer" 0.2, 3.08)])))).
Defined.

(** C6, the example as the claim gives it: the survivors of similarities
    0.9, 0.5 and 0.2 and soft scores 0, 0 and 5 do not have the normalized
    scores 0, 0.056 and 1 in that order: the first one's is 1/18, the second
    one's is 0. *)
Lemma C6_example_normalized_differs :
  ~ (exists n1 n2 n3,
        map snd (with_normalized_scores
                   (with_final_scores (R:=Q) three_candidates rust_criteria))
        = [n1; n2; n3] /\
        n1 == 0 /\ 0.0555 <= n2 <= 0.0565 /\ n3 == 1).
Proof.
  intros (n1 & n2 & n3 & E & H1 & _ & _).
  vm_compute in E. injection E as <- <- <-.
  vm_compute in H1. discriminate.
Qed.

(** C6, amended: the final score is 0.4 times the retrieval similarity plus
    0.6 times the soft score; the survivors are ordered by descending
    normalized score, equal scores keeping the retriever's order; the result
    is the identifiers of the first K of them, with no padding. On the
    example the final scores are 0.36, 0.2 and 3.08, the normalized scores
    1/18 (0.056), 0 and 1, the order c3, c1, c2, and the top two c3, c1. *)
Theorem C6_ranking :
  (forall (c : Candidate Q) sc,
      final_score c sc == 0.4 * get (rrf_score c) 0 + 0.6 * calculate_soft_score c sc) /\
  (forall (cands : list (Candidate Q)) sc,
      let normalized := with_normalized_scores (with_final_scores cands sc) in
      Permutation normalized (ranked cands sc) /\
      StronglySorted by_score_desc (ranked cands sc) /\
      forall q, with_score q (ranked cands sc) = with_score q normalized) /\
  (forall (cands : list (Candidate Q)) sc (k : nat),
      rank_stage cands sc (Z.of_nat k)
      = map (fun cn => cand_id (fst cn)) (firstn k (ranked cands sc)) /\
      length (rank_stage cands sc (Z.of_nat k)) = Nat.min k (length cands)) /\
  (Forall2 Qeq (map snd (with_final_scores (R:=Q) three_candidates rust_criteria))
     [0.36; 0.2; 3.08] /\
   Forall2 Qeq (map snd (with_normalized_scores
                           (with_final_scores (R:=Q) three_candidates rust_criteria)))
     [1 # 18; 0; 1] /\
   map (fun cn => cand_id (fst cn)) (ranked (R:=Q) three_candidates rust_criteria)
   = ["c3"; "c1"; "c2"] /\
   rank_stage (R:=Q) three_candidates rust_criteria 2 = ["c3"; "c1"]).
Proof.
  split; [|split; [|split]].
  - intros c sc. unfold final_score. cbn. ring.
  - intros cands sc normalized. split; [|split].
    + apply sort_desc_perm.
    + apply sort_desc_sorted.
    + intros q. apply sort_desc_stable.
  - intros cands sc k. rewrite rank_stage_slice, slice_to_nat. split; [reflexivity|].
    rewrite length_map, length_firstn, ranked_length. reflexivity.
  - repeat split; try (vm_compute; reflexivity).
    + repeat constructor; vm_compute; reflexivity.
    + repeat constructor; vm_compute; reflexivity.
Qed.

(** The example of C6 run on binary64 floats gives the same ranking. *)
Example ranking_example_binary64 :
  rank_stage (R:=float) three_candidates rust_criteria 2 = ["c3"; "c1"] /\
  map (fun cn => cand_id (fst cn)) (ranked (R:=float) three_candidates rust_criteria)
  = ["c3"; "c1"; "c2"].
Proof. split; vm_compute; reflexivity. Qed.

End RankingClaims.

(** ** Soft score ([search_engine.py]) *)

Section SoftScoring.

Import Utils SearchEngine Spec Examples Binary64.
Local Open Scope Q_scope.

Lemma soft_loop_sum (sc : SoftCriteria Q) (blob : string) (l : list (string * Q)) :
  forall acc : Q,
    fold_left (fun score fw =>
                 if any_keyword sc (fst fw +:+ "_keywords") blob
                 then add score (snd fw) else score) l acc
    == acc + fold_right add (lit 0) (map (factor_credit sc blob) l).
Proof.
  induction l as [|fw l IH]; intros acc; cbn [fold_left map fold_right].
  - cbn. ring.
  - rewrite IH. unfold factor_credit at 2.
    destruct (any_keyword sc (fst fw +:+ "_keywords") blob); cbn; ring.
Qed.

Lemma soft_loop_nonneg (sc : SoftCriteria Q) (blob : string) (l : list (string * Q)) :
  Forall (fun fw => 0 <= snd fw) l ->
  forall acc : Q,
    0 <= acc ->
    0 <= fold_left (fun score fw =>
                      if any_keyword sc (fst fw +:+ "_keywords") blob
                      then add score (snd fw) else score) l acc.
Proof.
  induction 1 as [|fw l Hfw _ IH]; intros acc Hacc; cbn [fold_left]; [exact Hacc|].
  apply IH. destruct (any_keyword sc (fst fw +:+ "_keywords") blob); [|exact Hacc].
  cbn. lra.
Qed.




(** The example of C7 run on binary64 floats. *)
Example soft_score_example_binary64 :
  calculate_soft_score (R:=float) a_once (Some ab_criteria) = 3%float /\
  calculate_soft_score (R:=float) a_twice (Some ab_criteria) = 3%float.
Proof. split; vm_compute; reflexivity. Qed.

(** The candidate with 99 years of experience on binary64 floats: 5.0. *)
Example default_threshold_binary64 :
  calculate_soft_score (R:=float) veteran (Some ab_criteria) = 5%float.
Proof. vm_compute. reflexivity. Qed.

(** C8, as the claim gives it: with a factor of weight -1 whose keyword is
    in the text, the soft score is -1, below 0. *)
Lemma C8_negative_weight_negative_score :
  ~ (forall (c : Candidate Q) (sc : option (SoftCriteria Q)),
        0 <= calculate_soft_score c sc).
Proof.
  intros Hall. specialize (Hall a_once (Some penalty_criteria)).
  vm_compute in Hall. apply Hall. reflexivity.
Qed.

(** C8, amended: when no weight of [weight_factors] is negative the soft
    score is at least 0; without soft criteria, or with an empty dict of
    them, it is exactly 0. *)
Theorem C8_soft_score_nonneg (c : Candidate Q) (sc : SoftCriteria Q) :
  Forall (fun fw => 0 <= snd fw) (get (weight_factors sc) []) ->
  0 <= calculate_soft_score c (Some sc) /\
  calculate_soft_score c None = 0 /\
  calculate_soft_score c (Some no_soft_criteria) = 0.
Proof.
  intros Hw. split; [|split; reflexivity].
  unfold calculate_soft_score.
  destruct (soft_falsy (Some sc)); [cbn; lra|].
  set (loop := fold_left _ _ _).
  assert (Hloop : 0 <= loop).
  { unfold loop. apply soft_loop_nonneg; [exact Hw|]. cbn. lra. }
  destruct (any_keyword sc "preferred_keywords" (text_blob c));
    destruct (_ >=? _)%Z; cbn; lra.
Qed.

(** C8 on an instance: the criteria of weights 3.0 and 2.0. *)
Lemma C8_soft_score_nonneg_witness :
  0 <= calculate_soft_score (R:=Q) a_once (Some ab_criteria).
Proof.
  refine (proj1 (C8_soft_score_nonneg a_once ab_criteria _)).
  repeat constructor; vm_compute; discriminate.
Defined.

End SoftScoring.

(** ** Filter statistics ([filter_logger.py]) *)

Section Statistics.

Import FilterLog Spec Examples Binary64.

Lemma py_sum_acc {A} (f : A -> Z) (l : list A) :
  forall acc, fold_left (fun a x => a + f x) l acc = acc + sum_of f l.
Proof.
  induction l as [|x l IH]; intros acc; [cbn; lia|].
  change (sum_of f (x :: l)) with (f x + sum_of f l).
  cbn [fold_left]. rewrite IH. lia.
Qed.

Lemma py_sum_sum_of {A} (f : A -> Z) (l : list A) : py_sum f l = sum_of f l.
Proof. unfold py_sum. rewrite py_sum_acc. lia. Qed.

Lemma sum_of_len_failures (sessions : list FilterSession) :
  sum_of (fun s => len (filter_failures s)) sessions = len (all_failures sessions).
Proof.
  unfold all_failures, len.
  induction sessions as [|s l IH]; [reflexivity|].
  change (sum_of (fun s => Z.of_nat (length (filter_failures s))) (s :: l))
    with (Z.of_nat (length (filter_failures s))
          + sum_of (fun s => Z.of_nat (length (filter_failures s))) l).
  cbn [map concat]. rewrite length_app, IH. lia.
Qed.

Lemma bump_bump (o : option Z) (a b : Z) :
  0 <= a -> 0 <= b -> bump (bump o a) b = bump o (a + b).
Proof.
  intros Ha Hb. unfold bump.
  destruct (Z.eqb_spec a 0), (Z.eqb_spec b 0), (Z.eqb_spec (a + b) 0);
    subst; simpl; try lia; try reflexivity; f_equal; lia.
Qed.

Lemma count_failure_lookup (fb : gmap string Z) (f : FilterFailure) (k : string) :
  count_failure fb f !! k = bump (fb !! k) (if String.eqb (filter_key f) k then 1 else 0).
Proof.
  unfold count_failure, bump.
  destruct (String.eqb_spec (filter_key f) k) as [->|Hne]; cbn [Z.eqb].
  - rewrite lookup_insert_eq. destruct (fb !! k) eqn:E.
    + rewrite E. reflexivity.
    + rewrite lookup_insert_eq. reflexivity.
  - rewrite lookup_insert_ne by exact Hne.
    destruct (fb !! filter_key f); [reflexivity|].
    rewrite lookup_insert_ne by exact Hne. reflexivity.
Qed.

Lemma count_failures_lookup (fs : list FilterFailure) (k : string) :
  forall fb : gmap string Z,
    fold_left count_failure fs fb !! k
    = bump (fb !! k) (len (List.filter (fun f => String.eqb (filter_key f) k) fs)).
Proof.
  unfold len.
  induction fs as [|f fs IH]; intros fb; [reflexivity|].
  cbn [fold_left List.filter]. rewrite IH, count_failure_lookup, bump_bump.
  - f_equal. destruct (String.eqb (filter_key f) k); cbn [length]; lia.
  - destruct (String.eqb (filter_key f) k); lia.
  - lia.
Qed.

Lemma breakdown_lookup (sessions : list FilterSession) (k : string) :
  forall fb : gmap string Z,
    fold_left (fun fb session => fold_left count_failure (filter_failures session) fb)
      sessions fb !! k
    = bump (fb !! k) (failures_keyed k sessions).
Proof.
  unfold failures_keyed, all_failures, len.
  induction sessions as [|s l IH]; intros fb; [reflexivity|].
  cbn [fold_left map concat]. rewrite IH, count_failures_lookup, bump_bump.
  - f_equal. unfold len. rewrite List.filter_app, length_app. lia.
  - unfold len. lia.
  - lia.
Qed.

Lemma add_session_lookup (jp : gmap string (JobPerformance Q)) (s : FilterSession)
  (job : string) :
  add_session jp s !! job
  = if String.eqb (job_config_name s) job
    then Some (accumulate (default fresh_entry (jp !! job)) s)
    else jp !! job.
Proof.
  unfold add_session.
  destruct (String.eqb_spec (job_config_name s) job) as [->|Hne].
  - rewrite lookup_alter_eq. destruct (jp !! job) eqn:E.
    + rewrite E. reflexivity.
    + rewrite lookup_insert_eq. reflexivity.
  - rewrite lookup_alter_ne by exact Hne.
    destruct (jp !! job_config_name s); [reflexivity|].
    apply lookup_insert_ne, Hne.
Qed.

Lemma add_sessions_lookup (sessions : list FilterSession) (job : string) :
  forall jp : gmap string (JobPerformance Q),
    fold_left add_session sessions jp !! job
    = match sessions_of job sessions with
      | [] => jp !! job
      | js => Some (fold_left accumulate js (default fresh_entry (jp !! job)))
      end.
Proof.
  unfold sessions_of.
  induction sessions as [|s l IH]; intros jp; [reflexivity|].
  cbn [fold_left List.filter]. rewrite IH, add_session_lookup.
  destruct (String.eqb (job_config_name s) job).
  - cbn [fold_left default].
    destruct (List.filter _ l); reflexivity.
  - reflexivity.
Qed.

Lemma accumulate_totals (js : list FilterSession) :
  forall jp : JobPerformance Q,
    fold_left accumulate js jp
    = {| jp_total_candidates := jp_total_candidates jp + sum_of total_candidates js;
         jp_filtered_candidates :=
           jp_filtered_candidates jp + sum_of candidates_after_filtering js;
         jp_failure_count :=
           jp_failure_count jp + sum_of (fun s => len (filter_failures s)) js;
         jp_filter_rate := jp_filter_rate jp |}.
Proof.
  induction js as [|s l IH]; intros jp.
  - destruct jp. cbn. f_equal; lia.
  - cbn [fold_left]. rewrite IH. unfold accumulate. cbn [jp_total_candidates
      jp_filtered_candidates jp_failure_count jp_filter_rate].
    change (sum_of total_candidates (s :: l))
      with (total_candidates s + sum_of total_candidates l).
    change (sum_of candidates_after_filtering (s :: l))
      with (candidates_after_filtering s + sum_of candidates_after_filtering l).
    change (sum_of (fun s => len (filter_failures s)) (s :: l))
      with (len (filter_failures s) + sum_of (fun s => len (filter_failures s)) l).
    f_equal; lia.
Qed.

Lemma set_filter_rate_totals (js : list FilterSession) :
  set_filter_rate (fold_left accumulate js fresh_entry) = job_totals js.
Proof.
  rewrite accumulate_totals. unfold set_filter_rate, job_totals, filter_rate, fresh_entry.
  cbn [jp_total_candidates jp_filtered_candidates jp_failure_count jp_filter_rate].
  rewrite !Z.add_0_l. destruct (_ >? 0); reflexivity.
Qed.

(** C9, as the claim gives it: a logger without a closed session gets no
    report at all (the empty dict), hence no overall filter rate of 0. *)
Lemma C9_no_session_no_report :
  ~ (exists stats : FilterStats Q,
        get_filter_stats (init NoFile) = Some stats /\
        (overall_filter_rate (overall_stats stats) == 0)%Q).
Proof. intros (stats & Hs & _). discriminate Hs. Qed.

(** C9, amended: with no closed session [get_filter_stats] returns an empty
    dict; with at least one it gives, over the closed sessions, the
    candidates processed, the candidates passed and the failures in total,
    the overall filter rate [(processed - passed) / processed] (0 when
    nothing was processed), the number of failures under each key
    ["<filter_type>.<filter_name>"], and for each job configuration its
    totals and its filter rate; sessions of 100 candidates with 40 passed and
    of 50 with 30 give the overall rate (150 - 70) / 150. *)
Theorem C9_get_filter_stats (self : FilterLogger) :
  let sessions := all_sessions self in
  let processed := sum_of total_candidates sessions in
  let passed := sum_of candidates_after_filtering sessions in
  (sessions = [] -> get_filter_stats (R:=Q) self = None) /\
  (sessions <> [] ->
   exists stats : FilterStats Q,
     get_filter_stats self = Some stats /\
     total_candidates_processed (overall_stats stats) = processed /\
     total_candidates_passed (overall_stats stats) = passed /\
     total_filter_failures (overall_stats stats) = len (all_failures sessions) /\
     overall_filter_rate (overall_stats stats) = filter_rate processed passed /\
     (forall k, failure_breakdown stats !! k
                = if failures_keyed k sessions =? 0 then None
                  else Some (failures_keyed k sessions)) /\
     (forall job, job_performance stats !! job
                  = match sessions_of job sessions with
                    | [] => None
                    | js => Some (job_totals js)
                    end)) /\
  (filter_rate 0 0 = 0%Q /\
   (overall_filter_rate <$> (overall_stats <$> get_filter_stats (R:=Q) two_sessions))
   = Some ((150 - 70) / 150)%Q).
Proof.
  intros sessions processed passed.
  split; [intros E; unfold get_filter_stats; fold sessions; rewrite E; reflexivity|].
  split; [|split; reflexivity]. intros Hne.
  assert (Hsome : forall (x : FilterStats Q),
             match all_sessions self with [] => None | _ :: _ => Some x end = Some x)
    by (intros x; destruct (all_sessions self); [contradiction|reflexivity]).
  unfold get_filter_stats. rewrite Hsome. eexists. split; [reflexivity|].
  cbn [overall_stats total_candidates_processed total_candidates_passed
         total_filter_failures overall_filter_rate failure_breakdown job_performance].
  rewrite !py_sum_sum_of. repeat split.
  - apply sum_of_len_failures.
  - intros k. rewrite breakdown_lookup, lookup_empty. reflexivity.
  - intros job. rewrite lookup_fmap, add_sessions_lookup, lookup_empty.
    subst sessions.
    destruct (sessions_of job (all_sessions self)) as [|j js]; [reflexivity|].
    cbn [fmap option_fmap option_map default]. f_equal.
    apply set_filter_rate_totals.
Qed.

(** C9 on an instance: the two sessions of the example. *)
Lemma C9_get_filter_stats_witness :
  exists stats : FilterStats Q,
    get_filter_stats two_sessions = Some stats /\
    total_candidates_processed (overall_stats stats) = 150 /\
    total_candidates_passed (overall_stats stats) = 70.
Proof.
  destruct (proj1 (proj2 (C9_get_filter_stats two_sessions)) ltac:(discriminate))
    as (stats & Hs & Hp & Hq & _).
  exists stats. repeat split; assumption.
Defined.

(** The example of C9 run on binary64 floats: 80 / 150. *)
Example filter_rate_example_binary64 :
  (overall_filter_rate <$> (overall_stats <$> get_filter_stats (R:=float) two_sessions))
  = Some (PrimFloat.div (Binary64.of_Z 80) (Binary64.of_Z 150)).
Proof. vm_compute. reflexivity. Qed.

End Statistics.

(** ** The session slot of the logger ([filter_logger.py]) *)

Section Sessions.

Import FilterLog Spec Examples.

Lemma step_all_sessions (self : FilterLogger) (o : op) :
  all_sessions (step self o) = all_sessions self \/
  (exists s n w, o = EndSession n w /\ current_session self = Some s /\
                 all_sessions (step self o) = all_sessions self ++ [closed_with s n]) \/
  (o = LoadFromFile /\
   all_sessions (step self o)
   = match log_file self with
     | NoFile => all_sessions self
     | FileWith sessions => sessions
     | Unreadable => []
     end).
Proof.
  destruct o as [j q t now|i n ft fn r e a now|n w|w|]; cbn [step].
  - left. reflexivity.
  - left. unfold log_filter_failure. destruct (current_session self); reflexivity.
  - unfold end_session. destruct (current_session self) as [s|] eqn:E.
    + right. left. exists s, n, w. repeat split. 
    + left. reflexivity.
  - left. reflexivity.
  - right. right. split; [reflexivity|].
    unfold load_from_file. destruct (log_file self); reflexivity.
Qed.

(** C10: [start_session] on a logger whose session is open leaves
    [all_sessions] and the file as they are and opens a session without
    failures; the logger it gives is the one it gives when no session was
    open, so that whatever calls follow, the sessions kept, the statistics
    and the file are those of a logger that never had the replaced session;
    and [all_sessions] only grows by [end_session] appending the session
    then open. A session opened with a failure logged and then replaced
    leaves no trace once its successor is closed. *)
Theorem C10_start_session_replaces (self : FilterLogger) (replaced : FilterSession)
  (job_config_name query : string) (total_candidates : Z) (now : string) :
  current_session self = Some replaced ->
  let self' := start_session self job_config_name query total_candidates now in
  (all_sessions self' = all_sessions self /\
   log_file self' = log_file self /\
   (filter_failures <$> current_session self') = Some []) /\
  self' = start_session (without_open_session self)
            job_config_name query total_candidates now /\
  (forall ops : list op,
      let after := run_ops self' ops in
      let reference :=
        run_ops (start_session (without_open_session self)
                   job_config_name query total_candidates now) ops in
      all_sessions after = all_sessions reference /\
      log_file after = log_file reference /\
      get_filter_stats (R:=Q) after = get_filter_stats reference) /\
  (forall (st : FilterLogger) (o : op),
      all_sessions (step st o) = all_sessions st \/
      (exists s n w, o = EndSession n w /\ current_session st = Some s /\
                     all_sessions (step st o) = all_sessions st ++ [closed_with s n]) \/
      (o = LoadFromFile /\
       all_sessions (step st o)
       = match log_file st with
         | NoFile => all_sessions st
         | FileWith sessions => sessions
         | Unreadable => []
         end)) /\
  (let final := run_ops one_closed overlapping_calls in
   all_sessions final
   = [closed "Tax Lawyer" 100 40 [];
      {| FilterLog.job_config_name := "Radiology"; FilterLog.query := "radiologist";
         FilterLog.total_candidates := 2; candidates_after_filtering := 2;
         filter_failures := []; session_timestamp := "2025-01-02T10:00:02" |}] /\
   log_file final = FileWith (all_sessions final) /\
   (total_filter_failures <$> (overall_stats <$> get_filter_stats (R:=Q) final)) = Some 0).
Proof.
  intros Hopen self'. split; [repeat split|]. split; [reflexivity|].
  split; [intros ops after reference; repeat split|].
  split; [exact step_all_sessions|]. repeat split; vm_compute; reflexivity.
Qed.

(** C10 on an instance: the session opened for the "Medical Doctor" job,
    with its failure, is replaced by the session of the "Radiology" job. *)
Lemma C10_start_session_replaces_witness :
  let self := run_ops one_closed (firstn 2 overlapping_calls) in
  let self' := start_session self "Radiology" "radiologist" 2 "2025-01-02T10:00:02" in
  all_sessions self' = all_sessions self /\
  log_file self' = log_file self /\
  (filter_failures <$> current_session self') = Some [].
Proof.
  refine (proj1 (C10_start_session_replaces
                   (run_ops one_closed (firstn 2 overlapping_calls))
                   _ "Radiology" "radiologist" 2 "2025-01-02T10:00:02" _)).
  vm_compute. reflexivity.
Defined.

End Sessions.

(** ** Years of experience: what the merged ranges measure *)

Section YearsCovered.

Import Utils Spec Coverage.

Lemma sweep_covered (l : list (Z * Z)) (y : Z) :
  forall cur,
    Forall (by_start cur) l -> StronglySorted by_start l ->
    covered (sweep cur l) y = inside cur y || covered l y.
Proof.
  induction l as [|r l IH]; intros cur Hcur Hs; [reflexivity|].
  inversion Hcur as [|? ? Hr Hl]; subst. inversion Hs as [|? ? Hs' Hrl]; subst.
  cbn [sweep]. unfold by_start in *. destruct (Z.leb_spec (fst r) (snd cur)).
  - rewrite IH; [| |exact Hs'].
    + cbn [covered existsb]. rewrite orb_assoc. f_equal.
      unfold inside. cbn [fst snd].
      destruct (Z.leb_spec (fst cur) y), (Z.ltb_spec y (snd cur)),
        (Z.leb_spec (fst r) y), (Z.ltb_spec y (snd r)),
        (Z.ltb_spec y (Z.max (snd cur) (snd r))); cbn; try reflexivity; lia.
    + eapply Forall_impl; [exact Hl|]. cbn. intros; lia.
  - change (covered (cur :: sweep r l) y) with (inside cur y || covered (sweep r l) y).
    rewrite IH; [reflexivity|exact Hrl|exact Hs'].
Qed.

Lemma merged_intervals_covered (l : list (Z * Z)) (y : Z) :
  StronglySorted by_start l -> covered (merged_intervals l) y = covered l y.
Proof.
  intros Hs. destruct l as [|r l]; [reflexivity|].
  inversion Hs; subst. apply sweep_covered; assumption.
Qed.

Lemma sweep_starts (l : list (Z * Z)) :
  forall cur, Forall (by_start cur) l -> StronglySorted by_start l ->
              Forall (by_start cur) (sweep cur l).
Proof.
  induction l as [|r l IH]; intros cur Hcur Hs.
  - repeat constructor. unfold by_start. lia.
  - inversion Hcur as [|? ? Hr Hl]; subst. inversion Hs as [|? ? Hs' Hrl]; subst.
    cbn [sweep]. destruct (fst r <=? snd cur).
    + apply (IH (fst cur, Z.max (snd cur) (snd r))); [|exact Hs'].
      eapply Forall_impl; [exact Hl|]. unfold by_start. cbn. intros; lia.
    + constructor; [unfold by_start; lia|].
      eapply Forall_impl; [exact (IH r Hrl Hs')|].
      unfold by_start in *. intros; lia.
Qed.

Lemma sweep_separated (lo hi : Z) (l : list (Z * Z)) :
  forall cur,
    within lo hi cur -> Forall (within lo hi) l ->
    Forall (by_start cur) l -> StronglySorted by_start l ->
    StronglySorted separated (sweep cur l) /\ Forall (within lo hi) (sweep cur l).
Proof.
  induction l as [|r l IH]; intros cur Hc Hw Hcur Hs.
  - split; repeat constructor; apply Hc.
  - inversion Hcur as [|? ? Hr Hl]; subst. inversion Hs as [|? ? Hs' Hrl]; subst.
    inversion Hw as [|? ? Hwr Hwl]; subst.
    cbn [sweep]. destruct (Z.leb_spec (fst r) (snd cur)).
    + apply IH; [| exact Hwl | | exact Hs'].
      * unfold within in *. cbn. lia.
      * eapply Forall_impl; [exact Hl|]. unfold by_start. cbn. intros; lia.
    + destruct (IH r Hwr Hwl Hrl Hs') as [Hsep Hin]. split.
      * constructor; [exact Hsep|].
        eapply Forall_impl; [exact (sweep_starts l r Hrl Hs')|].
        unfold by_start, separated. intros; lia.
      * constructor; assumption.
Qed.

Lemma count_or {A} (p q : A -> bool) (l : list A) :
  (forall x, p x = true -> q x = true -> False) ->
  length (List.filter (fun x => p x || q x) l)
  = (length (List.filter p l) + length (List.filter q l))%nat.
Proof.
  intros Hd. induction l as [|x l IH]; [reflexivity|].
  cbn [List.filter]. specialize (Hd x).
  destruct (p x), (q x); cbn [orb length]; try lia.
Qed.

Lemma filter_none {A} (p : A -> bool) (l : list A) :
  Forall (fun x => p x = false) l -> List.filter p l = [].
Proof.
  induction 1 as [|x l Hx _ IH]; [reflexivity|]. cbn. rewrite Hx. exact IH.
Qed.

Lemma filter_every {A} (p : A -> bool) (l : list A) :
  Forall (fun x => p x = true) l -> List.filter p l = l.
Proof.
  induction 1 as [|x l Hx _ IH]; [reflexivity|]. cbn. rewrite Hx, IH. reflexivity.
Qed.

Lemma count_inside (lo hi : Z) (r : Z * Z) :
  within lo hi r ->
  Z.of_nat (length (List.filter (inside r) (seqZ lo (hi - lo)))) = snd r - fst r.
Proof.
  intros (Hlo & Hse & Hhi).
  replace (hi - lo) with ((fst r - lo) + ((snd r - fst r) + (hi - snd r))) by lia.
  rewrite seqZ_app by lia. rewrite seqZ_app by lia.
  rewrite !List.filter_app, !length_app.
  rewrite (filter_none (inside r) (seqZ lo _)), (filter_every (inside r) (seqZ (lo + _) (snd r - _))),
    (filter_none (inside r) (seqZ (lo + _ + _) _)).
  - cbn [length]. rewrite length_seqZ. lia.
  - apply Forall_seqZ. intros y Hy. unfold inside. zify_bool. lia.
  - apply Forall_seqZ. intros y Hy. unfold inside. zify_bool. lia.
  - apply Forall_seqZ. intros y Hy. unfold inside. zify_bool. lia.
Qed.

Lemma separated_years_covered (lo hi : Z) (l : list (Z * Z)) :
  StronglySorted separated l -> Forall (within lo hi) l ->
  years_covered l lo hi = total_span l.
Proof.
  unfold years_covered.
  induction 1 as [|r l Hs IH Hr]; intros Hw.
  - cbn [covered existsb]. rewrite filter_none; [reflexivity|].
    apply List.Forall_forall. reflexivity.
  - inversion Hw as [|? ? Hwr Hwl]; subst.
    change (total_span (r :: l)) with ((snd r - fst r) + total_span l).
    rewrite <- (IH Hwl), <- (count_inside lo hi r Hwr), <- Nat2Z.inj_add. f_equal.
    apply (count_or (inside r) (covered l)).
    intros y Hy Hc. unfold covered in Hc. apply existsb_exists in Hc as (r' & Hin & Hy').
    rewrite List.Forall_forall in Hr. specialize (Hr r' Hin).
    unfold separated, inside in *. zify_bool. lia.
Qed.

Lemma covered_perm (l l' : list (Z * Z)) (y : Z) :
  Permutation l l' -> covered l y = covered l' y.
Proof.
  intros Hp. unfold covered.
  destruct (existsb _ l) eqn:E, (existsb _ l') eqn:E'; try reflexivity.
  - apply existsb_exists in E as (r & Hin & Hr).
    assert (existsb (fun r => inside r y) l' = true)
      by (apply existsb_exists; exists r; split; [eapply Permutation_in; eassumption|exact Hr]).
    congruence.
  - apply existsb_exists in E' as (r & Hin & Hr).
    assert (existsb (fun r => inside r y) l = true)
      by (apply existsb_exists; exists r; split;
          [eapply Permutation_in; [symmetry|]; eassumption|exact Hr]).
    congruence.
Qed.

Lemma collect_ranges_within (text : string) (current_year : Z) :
  Forall (within 1980 current_year) (collect_ranges text current_year).
Proof.
  rewrite collect_ranges_filter. apply List.Forall_forall. intros r Hr.
  apply filter_In in Hr as [_ Hr]. unfold valid_range, within in *. zify_bool. lia.
Qed.

Lemma calculate_experience_covered (text : string) (current_year : Z) :
  _calculate_experience_from_dates text current_year
  = years_covered (collect_ranges text current_year) 1980 current_year.
Proof.
  unfold _calculate_experience_from_dates.
  set (valid := collect_ranges text current_year).
  assert (Hw : Forall (within 1980 current_year) (sort_ranges valid)).
  { eapply Permutation_Forall; [apply sort_ranges_perm|apply collect_ranges_within]. }
  assert (Hcov : years_covered valid 1980 current_year
                 = years_covered (merged_intervals (sort_ranges valid)) 1980 current_year).
  { unfold years_covered. do 2 f_equal. apply filter_ext. intros y.
    rewrite merged_intervals_covered by apply sort_ranges_sorted.
    apply covered_perm, sort_ranges_perm. }
  rewrite Hcov. clear Hcov.
  pose proof (sort_ranges_sorted valid) as Hs.
  destruct (sort_ranges valid) as [|r l] eqn:E;
    [symmetry; apply (separated_years_covered 1980 current_year []); constructor|].
  rewrite sum_spans_total_span, merge_ranges_merged_intervals. symmetry.
  inversion Hs; subst. inversion Hw; subst.
  destruct (sweep_separated 1980 current_year l r) as [Hsep Hin]; try assumption.
  apply separated_years_covered; assumption.
Qed.

Lemma years_covered_bounds (l : list (Z * Z)) (lo hi : Z) :
  0 <= years_covered l lo hi <= Z.max 0 (hi - lo).
Proof.
  unfold years_covered. split; [lia|].
  pose proof (List.filter_length_le (covered l) (seqZ lo (hi - lo))) as Hle.
  rewrite length_seqZ in Hle. lia.
Qed.

(** X1: the date-range years of a text are the number of calendar years,
    from 1980 up to the current year, that lie in at least one of its valid
    ranges, so that years in overlapping ranges count once; they are never
    negative and never more than the years from 1980 to the current year. *)
Theorem date_range_years_are_years_covered (text : string) (current_year : Z) :
  _calculate_experience_from_dates text current_year
  = years_covered (collect_ranges text current_year) 1980 current_year /\
  0 <= _calculate_experience_from_dates text current_year
    <= Z.max 0 (current_year - 1980).
Proof.
  rewrite calculate_experience_covered. split; [reflexivity|].
  apply years_covered_bounds.
Qed.

(** X2: the merged intervals never overlap nor touch: each ends before the
    next starts, and each lies between 1980 and the current year. *)
Theorem merged_ranges_are_separated (text : string) (current_year : Z) :
  let merged := merge_ranges (sort_ranges (collect_ranges text current_year)) in
  StronglySorted separated merged /\ Forall (within 1980 current_year) merged.
Proof.
  intros merged. unfold merged. rewrite merge_ranges_merged_intervals.
  pose proof (sort_ranges_sorted (collect_ranges text current_year)) as Hs.
  assert (Hw : Forall (within 1980 current_year)
                 (sort_ranges (collect_ranges text current_year))).
  { eapply Permutation_Forall; [apply sort_ranges_perm|apply collect_ranges_within]. }
  destruct (sort_ranges _) as [|r l]; [split; constructor|].
  inversion Hs; subst. inversion Hw; subst.
  apply (sweep_separated 1980 current_year l r); assumption.
Qed.

Lemma digits_fold_nonneg (l : list ascii) :
  forall acc, 0 <= acc -> forallb Text.is_digit l = true ->
              0 <= fold_left (fun acc c => 10 * acc + Text.digit_value c) l acc.
Proof.
  induction l as [|d l IH]; intros acc Hacc Hd; [exact Hacc|].
  cbn [forallb] in Hd. apply andb_true_iff in Hd as [Hd Hl].
  cbn [fold_left]. apply IH; [|exact Hl].
  unfold Text.digit_value, Text.is_digit in *.
  apply andb_true_iff in Hd as [Hd _]. apply Nat.leb_le in Hd. lia.
Qed.

Lemma int_of_digits_nonneg (s : list ascii) (n : Z) :
  Text.int_of_digits s = Some n -> 0 <= n.
Proof.
  unfold Text.int_of_digits. destruct s as [|c s]; [discriminate|].
  destruct (forallb Text.is_digit (c :: s)) eqn:E; [|discriminate].
  intros [= <-]. apply (digits_fold_nonneg (c :: s) 0); [lia|exact E].
Qed.

Lemma extract_years_bounds (text : string) (current_year : Z) :
  0 <= extract_years_experience text current_year <= 50.
Proof.
  unfold extract_years_experience.
  destruct (String.eqb text ""); [lia|].
  rewrite or_zero.
  pose proof (years_covered_bounds
                (collect_ranges (Text.lower text) current_year) 1980 current_year) as Hd.
  rewrite <- calculate_experience_covered in Hd.
  destruct (Regex.search explicit_pattern (Text.lower text)) as [m|]; [|lia].
  destruct (Regex.group 1 m ≫= Text.int_of_digits) as [n|] eqn:E; [|lia].
  destruct (Regex.group 1 m) as [g|]; [|discriminate].
  apply int_of_digits_nonneg in E. lia.
Qed.

(** X3: the years of experience extracted from a text are never negative
    and never above 50, whatever the text and the current year; below 50
    they are at least the explicit years and at least the date-range years. *)
Theorem extract_years_experience_range (text : string) (current_year : Z) :
  0 <= extract_years_experience text current_year <= 50 /\
  Z.min (explicit_years text) 50 <= extract_years_experience text current_year /\
  Z.min (date_range_years text current_year) 50
  <= extract_years_experience text current_year.
Proof.
  split; [apply extract_years_bounds|].
  unfold extract_years_experience, explicit_years, date_range_years.
  destruct (String.eqb_spec text "") as [->|_]; [split; vm_compute; discriminate|].
  rewrite or_zero.
  destruct (Regex.search explicit_pattern (Text.lower text)) as [m|]; [|lia].
  destruct (Regex.group 1 m ≫= Text.int_of_digits); simpl; lia.
Qed.

End YearsCovered.

(** ** The logger: how its calls compose *)

Section LoggerProperties.

Import FilterLog Spec LogProps.

Lemma step_in_sync (self : FilterLogger) (o : op) :
  in_sync self -> writes_ok o -> in_sync (step self o).
Proof.
  unfold in_sync. intros Hs Hw.
  destruct o as [j q t now|i n ft fn r e a now|n w|w|]; cbn [step writes_ok] in *.
  - exact Hs.
  - unfold log_filter_failure. destruct (current_session self); exact Hs.
  - subst w. unfold end_session. destruct (current_session self); [reflexivity|exact Hs].
  - subst w. reflexivity.
  - unfold load_from_file. rewrite Hs. cbn. reflexivity.
Qed.

Lemma load_in_sync (self : FilterLogger) : in_sync self -> load_from_file self = self.
Proof.
  unfold in_sync, load_from_file. intros Hs. rewrite Hs. destruct self. cbn in *.
  subst. reflexivity.
Qed.

(** X4: as long as every write goes through, the file holds exactly the
    sessions the logger keeps, whatever the calls; reloading the file then
    gives the logger back as it is. *)
Theorem file_stays_in_sync (self : FilterLogger) (ops : list op) :
  in_sync self -> Forall writes_ok ops ->
  in_sync (run_ops self ops) /\
  load_from_file (run_ops self ops) = run_ops self ops.
Proof.
  intros Hs Hops.
  assert (Hfinal : in_sync (run_ops self ops)).
  { unfold run_ops. revert self Hs.
    induction Hops as [|o ops Ho _ IH]; intros self Hs; [exact Hs|].
    cbn [fold_left]. apply IH, step_in_sync; assumption. }
  split; [exact Hfinal|apply load_in_sync, Hfinal].
Qed.

Lemma file_stays_in_sync_witness :
  in_sync (run_ops Examples.one_closed Examples.overlapping_calls).
Proof.
  refine (proj1 (file_stays_in_sync Examples.one_closed Examples.overlapping_calls _ _)).
  - reflexivity.
  - repeat constructor.
Defined.

Lemma run_log_calls (fs : list FilterFailure) :
  forall (self : FilterLogger) (s : FilterSession),
    current_session self = Some s ->
    run_ops self (map log_call fs)
    = {| current_session :=
           Some {| job_config_name := job_config_name s; query := query s;
                   total_candidates := total_candidates s;
                   candidates_after_filtering := candidates_after_filtering s;
                   filter_failures := filter_failures s ++ fs;
                   session_timestamp := session_timestamp s |};
         all_sessions := all_sessions self;
         log_file := log_file self |}.
Proof.
  unfold run_ops.
  induction fs as [|f fs IH]; intros self s Hs.
  - cbn. rewrite app_nil_r. destruct self, s. cbn in *. subst. reflexivity.
  - cbn [map fold_left].
    assert (Hstep : step self (log_call f)
                    = {| current_session :=
                           Some {| job_config_name := job_config_name s; query := query s;
                                   total_candidates := total_candidates s;
                                   candidates_after_filtering := candidates_after_filtering s;
                                   filter_failures := filter_failures s ++ [f];
                                   session_timestamp := session_timestamp s |};
                         all_sessions := all_sessions self;
                         log_file := log_file self |}).
    { cbn [step log_call]. unfold log_filter_failure. rewrite Hs. destruct f. reflexivity. }
    rewrite Hstep. erewrite IH by reflexivity.
    cbn. rewrite <- app_assoc. reflexivity.
Qed.

(** X5: a session opened, fed failures and closed is appended to the
    sessions kept, after those already there, with its counts and with
    exactly the failures logged, in the order of the calls; no session is left
    open, and a write that goes through puts all the sessions in the file. *)
Theorem session_life_cycle (self : FilterLogger) (job query now : string)
  (total survivors : Z) (fs : list FilterFailure) (w : write_outcome) :
  let session :=
    {| job_config_name := job; FilterLog.query := query; total_candidates := total;
       candidates_after_filtering := survivors; filter_failures := fs;
       session_timestamp := now |} in
  run_ops self (StartSession job query total now :: map log_call fs
                ++ [EndSession survivors w])
  = {| current_session := None;
       all_sessions := all_sessions self ++ [session];
       log_file := match w with
                   | Written => FileWith (all_sessions self ++ [session])
                   | WriteFailed f => f
                   end |}.
Proof.
  intros session. unfold run_ops. cbn [fold_left step]. rewrite fold_left_app.
  fold (run_ops (start_session self job query total now) (map log_call fs)).
  erewrite run_log_calls by reflexivity.
  cbn. unfold end_session, save_to_file. cbn. reflexivity.
Qed.

(** X6: once [end_session] has run, a second [end_session] and a
    [log_filter_failure] change nothing: a session is never recorded twice
    and a failure logged outside a session is dropped. *)
Theorem closed_logger_ignores_calls (self : FilterLogger) (n : Z) (w : write_outcome)
  (o : op) :
  (exists n' w', o = EndSession n' w') \/
  (exists i c ft fn r e a now, o = LogFilterFailure i c ft fn r e a now) ->
  current_session (end_session self n w) = None /\
  step (end_session self n w) o = end_session self n w.
Proof.
  assert (Hnone : current_session (end_session self n w) = None)
    by (unfold end_session; destruct (current_session self) eqn:E; [reflexivity|exact E]).
  intros [(n' & w' & ->)|(i & c & ft & fn & r & e & a & now & ->)];
    (split; [exact Hnone|]); cbn [step].
  - unfold end_session at 1. rewrite Hnone. reflexivity.
  - unfold log_filter_failure. rewrite Hnone. reflexivity.
Qed.

Lemma closed_logger_ignores_calls_witness :
  step (end_session (start_session (init NoFile) "Tax Lawyer" "tax" 3 "t0") 1 Written)
       (EndSession 2 Written)
  = end_session (start_session (init NoFile) "Tax Lawyer" "tax" 3 "t0") 1 Written.
Proof.
  refine (proj2 (closed_logger_ignores_calls _ 1 Written (EndSession 2 Written) _)).
  left. exists 2, Written. reflexivity.
Defined.

End LoggerProperties.

(** ** Hard filters and soft score: further properties *)

Section FilterProperties.

Import SearchEngine Spec FilterProps.
Context {R : Type}.

Lemma apply_hard_filters_kept (candidates : list (Candidate R))
  (hard_criteria : option HardCriteria) :
  apply_hard_filters candidates hard_criteria
  = List.filter (kept hard_criteria) candidates.
Proof.
  destruct hard_criteria as [hc|]; cbn [kept apply_hard_filters].
  - destruct (hard_falsy (Some hc)) eqn:E.
    + symmetry. apply filter_every, List.Forall_forall. intros c _.
      cbn [kept]. unfold hard_falsy in E. unfold passes_hard_filters.
      destruct (min_years_experience hc), (max_years_experience hc),
        (required_education hc), (required_keywords hc); try discriminate.
      reflexivity.
    + apply (fold_append_filter (passes_hard_filters hc) candidates []).
  - symmetry. apply filter_every, List.Forall_forall. reflexivity.
Qed.

Lemma filter_filter {A} (p q : A -> bool) (l : list A) :
  List.filter p (List.filter q l) = List.filter (fun x => q x && p x) l.
Proof.
  induction l as [|x l IH]; [reflexivity|].
  cbn [List.filter]. destruct (q x); cbn [List.filter andb]; rewrite IH; reflexivity.
Qed.

Lemma filter_sublist {A} (p : A -> bool) (l : list A) : sublist (List.filter p l) l.
Proof.
  induction l as [|x l IH]; [constructor|].
  cbn [List.filter]. destruct (p x); [apply sublist_skip|apply sublist_cons]; exact IH.
Qed.

(** X7: hard filtering only removes candidates and keeps the order of the
    others; filtering the survivors again with the same criteria removes
    nobody; and two sets of criteria applied one after the other give the
    same survivors in either order. *)
Theorem apply_hard_filters_algebra (candidates : list (Candidate R))
  (hc1 hc2 : option HardCriteria) :
  sublist (apply_hard_filters candidates hc1) candidates /\
  apply_hard_filters (apply_hard_filters candidates hc1) hc1
  = apply_hard_filters candidates hc1 /\
  apply_hard_filters (apply_hard_filters candidates hc1) hc2
  = apply_hard_filters (apply_hard_filters candidates hc2) hc1.
Proof.
  rewrite !apply_hard_filters_kept. split; [apply filter_sublist|]. split.
  - rewrite filter_filter. apply filter_ext. intros c. destruct (kept hc1 c); reflexivity.
  - rewrite !filter_filter. apply filter_ext. intros c. apply andb_comm.
Qed.

(** X8: every survivor of the hard filters has the years of experience the
    criteria ask for: at least the minimum and at most the maximum, where
    they are given. *)
Theorem survivors_within_experience_bounds (candidates : list (Candidate R))
  (hc : HardCriteria) :
  Forall (fun c =>
            (forall m, min_years_experience hc = Some m -> m <= get (years_experience c) 0) /\
            (forall m, max_years_experience hc = Some m -> get (years_experience c) 0 <= m))
         (apply_hard_filters candidates (Some hc)).
Proof.
  rewrite apply_hard_filters_kept. apply List.Forall_forall. intros c Hc.
  apply filter_In in Hc as [_ Hc]. cbn [kept] in Hc.
  apply passes_hard_filters_spec in Hc as [Hexp _]. exact Hexp.
Qed.

End FilterProperties.

Section ScoreProperties.

Import Utils SearchEngine Spec FilterProps Examples.
Local Open Scope Q_scope.

Lemma soft_loop_upper (sc : SoftCriteria Q) (blob : string) (l : list (string * Q)) :
  Forall (fun fw => 0 <= snd fw) l ->
  forall acc : Q,
    fold_left (fun score fw =>
                 if any_keyword sc (fst fw +:+ "_keywords") blob
                 then add score (snd fw) else score) l acc
    <= acc + total_weight l.
Proof.
  unfold total_weight.
  induction 1 as [|fw l Hfw _ IH]; intros acc; cbn [fold_left map fold_right].
  - lra.
  - eapply Qle_trans; [apply IH|].
    destruct (any_keyword sc (fst fw +:+ "_keywords") blob); cbn; lra.
Qed.

(** X9: when no weight is negative the soft score is at most the sum of
    all the weights plus 3 (the two flat bonuses). *)
Theorem soft_score_upper_bound (c : Candidate Q) (sc : SoftCriteria Q) :
  Forall (fun fw => 0 <= snd fw) (get (weight_factors sc) []) ->
  calculate_soft_score c (Some sc) <= total_weight (get (weight_factors sc) []) + 3.
Proof.
  intros Hw. unfold calculate_soft_score.
  assert (Ht : 0 <= total_weight (get (weight_factors sc) [])).
  { unfold total_weight. induction Hw as [|fw l Hfw _ IH]; cbn; [lra|].
    cbn in IH. lra. }
  destruct (soft_falsy (Some sc)); [cbn; lra|].
  pose proof (soft_loop_upper sc (text_blob c) _ Hw (lit 0)) as Hloop.
  set (loop := fold_left _ _ _) in *.
  destruct (any_keyword sc "preferred_keywords" (text_blob c));
    destruct (_ >=? _)%Z; cbn in *; lra.
Qed.

Lemma soft_score_upper_bound_witness :
  calculate_soft_score (R:=Q) a_once (Some ab_criteria) <= 3 + 2 + 3.
Proof.
  refine (Qle_trans _ _ _ (soft_score_upper_bound a_once ab_criteria _) _).
  - repeat constructor; vm_compute; discriminate.
  - vm_compute. discriminate.
Defined.

Lemma with_normalized_scores_ids (scored : list (Candidate Q * Q)) :
  map fst (with_normalized_scores scored) = map fst scored.
Proof.
  unfold with_normalized_scores. destruct scored as [|x l]; [reflexivity|].
  cbn [map]. rewrite map_map. cbn [fst]. reflexivity.
Qed.

Lemma in_firstn {A} (n : nat) (l : list A) (x : A) : In x (firstn n l) -> In x l.
Proof.
  intros Hx. rewrite <- (firstn_skipn n l). apply in_or_app. left. exact Hx.
Qed.

Lemma ranked_candidates (cands : list (Candidate Q)) (sc : option (SoftCriteria Q)) :
  Permutation cands (map fst (ranked cands sc)).
Proof.
  unfold ranked. rewrite <- (Permutation_map fst (sort_desc_perm _)).
  rewrite with_normalized_scores_ids. unfold with_final_scores.
  rewrite map_map. cbn [fst]. rewrite map_id. reflexivity.
Qed.

Lemma rank_stage_prefix (cands : list (Candidate Q)) (sc : option (SoftCriteria Q))
  (top_k : Z) :
  exists n, rank_stage cands sc top_k
            = firstn n (map (fun cn => cand_id (fst cn)) (ranked cands sc)).
Proof.
  rewrite rank_stage_slice. unfold slice_to.
  destruct (top_k <? 0)%Z; eexists; symmetry; apply firstn_map.
Qed.

(** X10: ranking neither loses nor invents a candidate: the ranked list
    holds the filtered candidates, each as many times as it was given;
    whatever [top_k], the identifiers returned are the first ones of the
    ranked list, so each is the identifier of a filtered candidate. *)
Theorem ranking_permutes_candidates (cands : list (Candidate Q))
  (sc : option (SoftCriteria Q)) (top_k : Z) :
  Permutation cands (map fst (ranked cands sc)) /\
  (exists n, rank_stage cands sc top_k
             = firstn n (map (fun cn => cand_id (fst cn)) (ranked cands sc))) /\
  incl (rank_stage cands sc top_k) (map cand_id cands).
Proof.
  split; [apply ranked_candidates|]. split; [apply rank_stage_prefix|].
  destruct (rank_stage_prefix cands sc top_k) as [n ->].
  intros i Hi. apply in_firstn in Hi.
  rewrite <- (map_map fst cand_id) in Hi.
  eapply Permutation_in; [|exact Hi].
  apply Permutation_map. symmetry. apply ranked_candidates.
Qed.

(** X11: [top_k] is used as the end of a slice: a negative [top_k] drops
    that many candidates from the end of the ranking instead of returning
    none, 0 returns none, and a [top_k] of at least the number of candidates
    returns them all. *)
Theorem top_k_is_a_slice_end (cands : list (Candidate Q))
  (sc : option (SoftCriteria Q)) (top_k : Z) :
  Z.of_nat (length (rank_stage cands sc top_k))
  = (if (top_k <? 0)%Z then Z.max 0 (Z.of_nat (length cands) + top_k)
     else Z.min top_k (Z.of_nat (length cands)))%Z.
Proof.
  rewrite rank_stage_slice, length_map. unfold slice_to, FilterLog.len.
  destruct (Z.ltb_spec top_k 0); rewrite length_firstn, !ranked_length; lia.
Qed.

End ScoreProperties.

Section RankingEnds.

Import Utils SearchEngine Spec.
Local Open Scope Q_scope.

Lemma sorted_desc_head {A} (x : A * Q) (l : list (A * Q)) :
  StronglySorted by_score_desc (x :: l) ->
  forall y, In y (x :: l) -> snd y <= snd x.
Proof.
  intros Hs y [<-|Hy]; [apply Qle_refl|].
  inversion Hs as [|? ? _ Hall]; subst.
  rewrite List.Forall_forall in Hall. exact (Hall y Hy).
Qed.

Lemma sorted_desc_last {A} (l : list (A * Q)) (d : A * Q) :
  StronglySorted by_score_desc l ->
  forall y, In y l -> snd (List.last l d) <= snd y.
Proof.
  induction 1 as [|x l Hs IH Hall]; intros y Hy; [destruct Hy|].
  destruct l as [|x' l'].
  - destruct Hy as [<-|[]]. apply Qle_refl.
  - change (List.last (x :: x' :: l') d) with (List.last (x' :: l') d).
    destruct Hy as [<-|Hy]; [|exact (IH y Hy)].
    rewrite List.Forall_forall in Hall. apply Hall.
    clear. revert x'. induction l' as [|z l' IH]; intros x'; [left; reflexivity|].
    right. apply IH.
Qed.

(** X12: when the final scores of the survivors are not all equal, the
    first candidate of the ranking has the normalized score 1 and the last
    one the normalized score 0. *)
Theorem ranking_ends (cands : list (Candidate Q)) (sc : option (SoftCriteria Q))
  (c1 c2 : Candidate Q) :
  In c1 cands -> In c2 cands -> final_score c1 sc < final_score c2 sc ->
  exists top rest,
    ranked cands sc = top :: rest /\
    snd top == 1 /\ snd (List.last (top :: rest) top) == 0.
Proof.
  intros H1 H2 Hlt.
  assert (Hf1 : In (final_score c1 sc) (map snd (with_final_scores cands sc)))
    by (unfold with_final_scores; rewrite map_map; cbn [snd];
        apply (in_map (fun c => final_score c sc)), H1).
  assert (Hf2 : In (final_score c2 sc) (map snd (with_final_scores cands sc)))
    by (unfold with_final_scores; rewrite map_map; cbn [snd];
        apply (in_map (fun c => final_score c sc)), H2).
  unfold ranked. destruct (with_final_scores cands sc) as [|[c0 f0] others] eqn:E;
    [destruct Hf1|].
  cbn [map snd] in Hf1, Hf2.
  destruct (py_min_spec (map snd others) f0) as [Hmin_in Hmin].
  destruct (py_max_spec (map snd others) f0) as [Hmax_in Hmax].
  set (mn := py_min f0 (map snd others)) in *.
  set (mx := py_max f0 (map snd others)) in *.
  rewrite List.Forall_forall in Hmin, Hmax.
  assert (Hd : mn < mx).
  { eapply Qle_lt_trans; [apply (Hmin _ Hf1)|].
    eapply Qlt_le_trans; [exact Hlt|apply (Hmax _ Hf2)]. }
  assert (Hne : ~ mx == mn) by (intros Heq; rewrite Heq in Hd; exact (Qlt_irrefl _ Hd)).
  set (scored := (c0, f0) :: others) in *.
  set (normalized := with_normalized_scores scored).
  assert (Hn : normalized
               = map (fun cf => (fst cf, normalize_score (snd cf) mn mx)) scored)
    by reflexivity.
  assert (Hrange : forall y, In y normalized -> 0 <= snd y <= 1).
  { intros y Hy. rewrite Hn in Hy. apply in_map_iff in Hy as (cf & <- & Hcf).
    cbn [snd]. apply normalize_score_range; [apply Hmin|apply Hmax];
      apply (in_map snd) in Hcf; exact Hcf. }
  assert (Hone : exists y, In y normalized /\ snd y == 1).
  { change (f0 :: map snd others) with (map snd scored) in Hmax_in.
    apply in_map_iff in Hmax_in as (cf & Hcf & Hin).
    exists (fst cf, normalize_score (snd cf) mn mx). split.
    - rewrite Hn. apply in_map_iff. exists cf. split; [reflexivity|exact Hin].
    - cbn [snd]. rewrite Hcf, normalize_score_formula by exact Hne.
      field. intros Hz. apply Hne. lra. }
  assert (Hzero : exists y, In y normalized /\ snd y == 0).
  { change (f0 :: map snd others) with (map snd scored) in Hmin_in.
    apply in_map_iff in Hmin_in as (cf & Hcf & Hin).
    exists (fst cf, normalize_score (snd cf) mn mx). split.
    - rewrite Hn. apply in_map_iff. exists cf. split; [reflexivity|exact Hin].
    - cbn [snd]. rewrite Hcf, normalize_score_formula by exact Hne.
      field. intros Hz. apply Hne. lra. }
  pose proof (sort_desc_perm normalized) as Hperm.
  pose proof (sort_desc_sorted normalized) as Hsorted.
  destruct (sort_desc normalized) as [|top rest] eqn:Es.
  { destruct Hone as (y & Hy & _). apply (Permutation_in _ Hperm) in Hy. destruct Hy. }
  exists top, rest. split; [reflexivity|].
  destruct Hone as (y1 & Hy1 & E1). destruct Hzero as (y0 & Hy0 & E0).
  split.
  - apply Qle_antisym.
    + apply Hrange. apply (Permutation_in _ (Permutation_sym Hperm)). left. reflexivity.
    + rewrite <- E1. apply (sorted_desc_head top rest Hsorted).
      apply (Permutation_in _ Hperm), Hy1.
  - apply Qle_antisym.
    + rewrite <- E0. apply (sorted_desc_last (top :: rest) top Hsorted).
      apply (Permutation_in _ Hperm), Hy0.
    + apply Hrange. apply (Permutation_in _ (Permutation_sym Hperm)).
      clear. generalize top at 1 3. revert top.
      induction rest as [|z rest IH]; intros top d; [left; reflexivity|].
      right. apply IH.
Qed.

Lemma ranking_ends_witness :
  exists top rest,
    ranked (R:=Q) Examples.three_candidates Examples.rust_criteria = top :: rest /\
    snd top == 1 /\ snd (List.last (top :: rest) top) == 0.
Proof.
  refine (ranking_ends Examples.three_candidates Examples.rust_criteria
            (Examples.retrieved "c2" "Go developer" 0.5)
            (Examples.retrieved "c3" "Rust developer" 0.2) _ _ _).
  - right. left. reflexivity.
  - right. right. left. reflexivity.
  - vm_compute. reflexivity.
Defined.

End RankingEnds.

(** ** The date pattern: what its groups capture *)

Section DigitCaptures.

Import Regex RegexProps Utils.

Lemma digits_loop (k : mstate -> option mstate) (n : nat) :
  forall (lo : nat) (st : mstate) (res : mstate),
    (fix loop (n : nat) (lo : nat) (st : mstate) {struct n} : option mstate :=
       match n with
       | O => if (lo =? 0)%nat then k st else None
       | S n' =>
           match run (Cls Digit) (fun st' =>
                           if (length (rest st') <? length (rest st))%nat
                           then loop n' (Nat.pred lo) st'
                           else None) st with
           | Some res => Some res
           | None => if (lo =? 0)%nat then k st else None
           end
       end) n lo st = Some res ->
    exists st' ds,
      k st' = Some res /\ forallb Text.is_digit ds = true /\
      rest st = ds ++ rest st' /\ caps st' = caps st.
Proof.
  induction n as [|n IH]; intros lo st res Hrun.
  - destruct (lo =? 0)%nat; [|discriminate].
    exists st, []. repeat split; assumption.
  - cbn [run] in Hrun. destruct (rest st) as [|c tl] eqn:Er.
    + destruct (lo =? 0)%nat; [|discriminate].
      exists st, []. rewrite Er. repeat split; assumption.
    + destruct (in_class Digit c) eqn:Ec.
      * cbn [advance rest] in Hrun.
        destruct (length tl <? length (c :: tl))%nat.
        -- match type of Hrun with
           | match ?x with _ => _ end = _ => destruct x as [r'|] eqn:El
           end.
           ++ injection Hrun as <-. apply IH in El as (st' & ds & Hk & Hd & Hrest & Hcaps).
              exists st', (c :: ds). cbn [rest caps advance] in *.
              repeat split; [exact Hk| |rewrite Hrest; reflexivity|exact Hcaps].
              cbn [forallb]. rewrite Hd. cbn [in_class] in Ec. rewrite Ec. reflexivity.
           ++ destruct (lo =? 0)%nat; [|discriminate].
              exists st, []. rewrite Er. repeat split; assumption.
        -- destruct (lo =? 0)%nat; [|discriminate].
           exists st, []. rewrite Er. repeat split; assumption.
      * destruct (lo =? 0)%nat; [|discriminate].
        exists st, []. rewrite Er. repeat split; assumption.
Qed.

Lemma run_keeps_digit_caps (r : regex) :
  digit_groups r ->
  forall k, keeps_digit_caps k -> keeps_digit_caps (run r k).
Proof.
  induction r as [|c|cl|r1 IH1 r2 IH2|r1 IH1 r2 IH2|lo hi r1 IH|i r1 _|];
    intros Hg k Hk st res Hst Hrun; cbn [run digit_groups] in *.
  - exact (Hk _ _ Hst Hrun).
  - destruct (rest st) as [|c' tl]; [discriminate|].
    destruct (Ascii.eqb c c'); [|discriminate]. exact (Hk _ _ (Hst : digit_caps (advance c' tl st)) Hrun).
  - destruct (rest st) as [|c' tl]; [discriminate|].
    destruct (in_class cl c'); [|discriminate]. exact (Hk _ _ (Hst : digit_caps (advance c' tl st)) Hrun).
  - destruct Hg as [Hg1 Hg2]. exact (IH1 Hg1 _ (IH2 Hg2 _ Hk) _ _ Hst Hrun).
  - destruct Hg as [Hg1 Hg2].
    destruct (run r1 k st) as [r'|] eqn:E1.
    + injection Hrun as <-. exact (IH1 Hg1 _ Hk _ _ Hst E1).
    + exact (IH2 Hg2 _ Hk _ _ Hst Hrun).
  - set (n := match hi with Some h => h | None => length (rest st) end) in Hrun.
    clearbody n. revert lo st res Hst Hrun.
    induction n as [|n IHn]; intros lo st res Hst Hrun.
    + destruct (lo =? 0)%nat; [|discriminate]. exact (Hk _ _ Hst Hrun).
    + match type of Hrun with
      | match ?x with _ => _ end = _ => destruct x as [r'|] eqn:El
      end.
      * injection Hrun as <-. refine (IH Hg _ _ _ _ Hst El).
        intros st1 res1 Hst1 Hres1.
        destruct (length (rest st1) <? length (rest st))%nat; [|discriminate].
        exact (IHn _ _ _ Hst1 Hres1).
      * destruct (lo =? 0)%nat; [|discriminate]. exact (Hk _ _ Hst Hrun).
  - destruct Hg as (lo & hi & ->). cbn [run] in Hrun.
    apply digits_loop in Hrun as (st' & ds & Hk' & Hd & Hrest & Hcaps).
    refine (Hk _ _ _ Hk'). unfold digit_caps, set_cap. cbn [caps].
    constructor; [|rewrite Hcaps; exact Hst].
    cbn [snd]. rewrite Hrest, length_app.
    replace (length ds + length (rest st') - length (rest st'))%nat
      with (length ds) by lia.
    rewrite firstn_app, firstn_all, Nat.sub_diag, firstn_O, app_nil_r. exact Hd.
  - destruct (xorb _ _); [|discriminate]. exact (Hk _ _ Hst Hrun).
Qed.

Lemma match_here_digit_groups (r : regex) (p : option ascii) (s : list ascii)
  (m : match_obj) (i : nat) (g : list ascii) :
  digit_groups r -> match_here r p s = Some m -> group i m = Some g ->
  forallb Text.is_digit g = true.
Proof.
  intros Hg Hm Hgr. unfold match_here in Hm.
  destruct (run r Some _) as [st|] eqn:Hrun; [|discriminate].
  injection Hm as <-.
  assert (Hcaps : digit_caps st).
  { refine (run_keeps_digit_caps r Hg Some _ _ _ _ Hrun).
    - intros st1 res1 H1 [= <-]. exact H1.
    - constructor. }
  unfold group in Hgr. cbn [groups] in Hgr.
  destruct (List.find _ (caps st)) as [[j g']|] eqn:Ef; [|discriminate].
  injection Hgr as <-. apply find_some in Ef as [Hin _].
  unfold digit_caps in Hcaps. rewrite List.Forall_forall in Hcaps.
  exact (Hcaps _ Hin).
Qed.

Lemma finditer_from_matches (r : regex) (s : list ascii) :
  forall skip p m,
    In m (finditer_from r skip p s) ->
    exists p' s', match_here r p' s' = Some m.
Proof.
  induction s as [|c s IH]; intros skip p m Hin.
  - destruct skip; cbn [finditer_from] in Hin; [|destruct Hin].
    destruct (match_here r p []) as [m'|] eqn:E; [|destruct Hin].
    destruct Hin as [<-|[]]. eauto.
  - destruct skip; cbn [finditer_from] in Hin.
    + destruct (match_here r p (c :: s)) as [m'|] eqn:E.
      * destruct Hin as [<-|Hin]; [eauto|exact (IH _ _ _ Hin)].
      * exact (IH _ _ _ Hin).
    + exact (IH _ _ _ Hin).
Qed.

Lemma date_pattern_digit_groups : digit_groups date_pattern.
Proof.
  unfold date_pattern, Seqs, month, Opt, Star. cbn.
  repeat split; eauto.
Qed.

Lemma digits_not_marker (g : list ascii) :
  forallb Text.is_digit g = true ->
  existsb (String.eqb (string_of_list_ascii g)) end_markers = false.
Proof.
  intros Hd. unfold end_markers. cbn [existsb].
  repeat match goal with
    | |- context [String.eqb ?a ?b] =>
        destruct (String.eqb_spec a b) as [E|_];
        [apply (f_equal list_ascii_of_string) in E;
         rewrite list_ascii_of_string_of_list_ascii in E; subst g; discriminate Hd|]
    end.
  reflexivity.
Qed.

(** X13: a date range counts only when both of its years are written in
    digits: the branch that reads "present", "current", "date" or "today" as
    the current year is never taken, so a range that is still open adds no
    year; "2015 - present" gives 0 years. *)
Theorem open_ended_ranges_are_not_counted :
  (forall (text : string) (current_year : Z),
      collect_ranges text current_year
      = omap (fun m =>
                start_year ← Regex.group 1 m ≫= year_of_str;
                end_year ← Regex.group 2 m ≫= year_of_str;
                if valid_range current_year (start_year, end_year)
                then Some (start_year, end_year) else None)
             (Regex.finditer date_pattern text)) /\
  _calculate_experience_from_dates "acme 2015 - present" 2025 = 0.
Proof.
  split; [|vm_compute; reflexivity].
  intros text current_year. unfold collect_ranges.
  assert (Hall : forall m, In m (Regex.finditer date_pattern text) ->
                           forall g, Regex.group 2 m = Some g ->
                                     forallb Text.is_digit g = true).
  { intros m Hm g Hg. apply finditer_from_matches in Hm as (p' & s' & Hm).
    exact (match_here_digit_groups _ _ _ _ _ _ date_pattern_digit_groups Hm Hg). }
  induction (Regex.finditer date_pattern text) as [|m ms IH]; [reflexivity|].
  cbn [omap list_omap].
  rewrite IH by (intros m' Hm'; apply Hall; right; exact Hm').
  f_equal. unfold range_of_match, years_of_match.
  destruct (Regex.group 1 m) as [g1|]; cbn [mbind option_bind]; [|reflexivity].
  destruct (year_of_str g1) as [y1|]; cbn [mbind option_bind]; [|reflexivity].
  destruct (Regex.group 2 m) as [g2|] eqn:E2; cbn [mbind option_bind]; [|reflexivity].
  rewrite (digits_not_marker g2) by (apply (Hall m); [left; reflexivity|exact E2]).
  destruct (year_of_str g2) as [y2|]; cbn [mbind option_bind]; reflexivity.
Qed.

End DigitCaptures.

(** ** [clean_text] *)

Section CleanText.

Import Enrichment.

(** Case analysis on a character. *)
Ltac by_ascii c :=
  destruct c as [[] [] [] [] [] [] [] []]; try reflexivity; try discriminate.

Lemma clean_char_space (c : ascii) :
  clean_char c = true -> Text.is_space c = Ascii.eqb c " ".
Proof. by_ascii c. Qed.

Lemma clean_char_kept (c : ascii) : clean_char c = true -> kept_char c = true.
Proof. by_ascii c. Qed.

Lemma clean_char_lower (c : ascii) : clean_char c = true -> Text.lower_char c = c.
Proof. by_ascii c. Qed.

Lemma clean_char_not_tag (c : ascii) : clean_char c = true -> Ascii.eqb c "<" = false.
Proof. by_ascii c. Qed.

Lemma kept_char_clean (c : ascii) :
  kept_char c = true -> Text.is_space c = false -> clean_char c = true.
Proof. by_ascii c. Qed.

Lemma not_space_not_blank (c : ascii) : Text.is_space c = false -> Ascii.eqb c " " = false.
Proof. by_ascii c. Qed.

Lemma blank_others_kept (s : list ascii) :
  Forall (fun c => kept_char c = true) (blank_others s).
Proof.
  unfold blank_others. apply Forall_map, List.Forall_forall. intros c _.
  destruct (kept_char c) eqn:E; [exact E|reflexivity].
Qed.

Lemma squeeze_clean (s : list ascii) :
  Forall (fun c => kept_char c = true) s ->
  forall b, Forall (fun c => clean_char c = true) (squeeze b s) /\
            single_blanks b (squeeze b s) = true.
Proof.
  induction 1 as [|c s Hc _ IH]; intros b; [split; [constructor|reflexivity]|].
  cbn [squeeze]. destruct (Text.is_space c) eqn:Es.
  - destruct b; [apply IH|].
    destruct (IH true) as [Hf Hs]. split; [constructor; [reflexivity|exact Hf]|].
    cbn [single_blanks]. exact Hs.
  - destruct (IH false) as [Hf Hs]. split.
    + constructor; [apply kept_char_clean; assumption|exact Hf].
    + cbn [single_blanks]. rewrite (not_space_not_blank c Es). exact Hs.
Qed.

Lemma lstrip_clean (s : list ascii) :
  Forall (fun c => clean_char c = true) s ->
  forall b, single_blanks b s = true ->
  Forall (fun c => clean_char c = true) (lstrip s) /\
  (forall b', single_blanks b' (lstrip s) = true) /\
  lstrip (lstrip s) = lstrip s.
Proof.
  induction 1 as [|c s Hc Hs IH]; intros b Hb;
    [split; [constructor|split; reflexivity]|].
  cbn [lstrip single_blanks] in *. rewrite (clean_char_space c Hc).
  destruct (Ascii.eqb c " ") eqn:E.
  - apply andb_true_iff in Hb as [_ Hb]. exact (IH true Hb).
  - split; [constructor; assumption|]. split.
    + intros b'. cbn [single_blanks]. rewrite E. exact Hb.
    + cbn [lstrip]. rewrite (clean_char_space c Hc), E. reflexivity.
Qed.

Lemma rstrip_clean (s : list ascii) :
  Forall (fun c => clean_char c = true) s ->
  Forall (fun c => clean_char c = true) (rstrip s) /\
  (forall b, single_blanks b s = true -> single_blanks b (rstrip s) = true) /\
  rstrip (rstrip s) = rstrip s /\
  (lstrip s = s -> lstrip (rstrip s) = rstrip s).
Proof.
  induction 1 as [|c s Hc Hs (IHf & IHb & IHr & IHl)];
    [split; [constructor|repeat split; reflexivity]|].
  cbn [rstrip]. destruct (rstrip s) as [|d r] eqn:Er.
  - rewrite (clean_char_space c Hc). destruct (Ascii.eqb c " ") eqn:E.
    + split; [constructor|]. repeat split; reflexivity.
    + split; [repeat constructor; exact Hc|]. repeat split.
      * intros b _. cbn [single_blanks]. rewrite E. reflexivity.
      * cbn [rstrip]. rewrite (clean_char_space c Hc), E. reflexivity.
      * intros _. cbn [lstrip]. rewrite (clean_char_space c Hc), E. reflexivity.
  - split; [constructor; assumption|]. repeat split.
    + intros b Hb. cbn [single_blanks] in *. destruct (Ascii.eqb c " ").
      * apply andb_true_iff in Hb as [Hb1 Hb2]. rewrite Hb1. exact (IHb true Hb2).
      * exact (IHb false Hb).
    + change (rstrip (c :: d :: r))
        with (match rstrip (d :: r) with
              | [] => if Text.is_space c then [] else [c]
              | x => c :: x
              end).
      rewrite IHr. reflexivity.
    + cbn [lstrip]. rewrite (clean_char_space c Hc).
      destruct (Ascii.eqb c " ") eqn:E; [|reflexivity].
      intros Hl. exfalso.
      assert (Hlen : (length (lstrip s) <= length s)%nat).
      { clear. induction s as [|x s IH]; [cbn; lia|].
        cbn [lstrip]. destruct (Text.is_space x); cbn [length]; lia. }
      rewrite Hl in Hlen. cbn [length] in Hlen. lia.
Qed.

Lemma strip_tags_clean (s : list ascii) :
  Forall (fun c => clean_char c = true) s -> strip_tags s = s.
Proof.
  unfold strip_tags. induction 1 as [|c s Hc _ IH]; [reflexivity|].
  cbn [strip_tags_from]. rewrite (clean_char_not_tag c Hc), IH. reflexivity.
Qed.

Lemma blank_others_clean (s : list ascii) :
  Forall (fun c => clean_char c = true) s -> blank_others s = s.
Proof.
  unfold blank_others. induction 1 as [|c s Hc _ IH]; [reflexivity|].
  cbn [map]. rewrite (clean_char_kept c Hc), IH. reflexivity.
Qed.

Lemma squeeze_single (s : list ascii) :
  Forall (fun c => clean_char c = true) s ->
  forall b, single_blanks b s = true -> squeeze b s = s.
Proof.
  induction 1 as [|c s Hc _ IH]; intros b Hb; [reflexivity|].
  cbn [squeeze single_blanks] in *. rewrite (clean_char_space c Hc).
  destruct (Ascii.eqb c " ") eqn:E.
  - apply andb_true_iff in Hb as [Hb1 Hb2]. apply negb_true_iff in Hb1. subst b.
    apply Ascii.eqb_eq in E. subst c. rewrite (IH true Hb2). reflexivity.
  - rewrite (IH false Hb). reflexivity.
Qed.

Lemma lower_clean (s : list ascii) :
  Forall (fun c => clean_char c = true) s ->
  Text.lower (string_of_list_ascii s) = string_of_list_ascii s.
Proof.
  induction 1 as [|c s Hc _ IH]; [reflexivity|].
  cbn [string_of_list_ascii Text.lower]. rewrite (clean_char_lower c Hc), IH. reflexivity.
Qed.

Lemma single_blanks_no_double (s : list ascii) :
  forall b, single_blanks b s = true ->
            Text.contains "  " (string_of_list_ascii s) = false.
Proof.
  induction s as [|c s IH]; intros b Hb; [reflexivity|].
  cbn [string_of_list_ascii Text.contains single_blanks] in *.
  destruct (Ascii.eqb c " ") eqn:E.
  - apply andb_true_iff in Hb as [_ Hb]. rewrite (IH true Hb).
    destruct s as [|d s]; cbn [string_of_list_ascii String.prefix].
    + destruct (ascii_dec " " c); reflexivity.
    + cbn [single_blanks] in Hb. destruct (Ascii.eqb d " ") eqn:Ed; [discriminate|].
      destruct (ascii_dec " " c); [|reflexivity].
      destruct (ascii_dec " " d) as [<-|]; [discriminate|reflexivity].
  - rewrite (IH false Hb). cbn [String.prefix].
    destruct (ascii_dec " " c) as [<-|]; [discriminate|reflexivity].
Qed.

Lemma lstrip_no_leading_blank (s : list ascii) :
  lstrip s = s -> String.prefix " " (string_of_list_ascii s) = false.
Proof.
  destruct s as [|c s]; [reflexivity|].
  cbn [lstrip string_of_list_ascii String.prefix].
  destruct (ascii_dec " " c) as [<-|]; [|reflexivity].
  intros Hl. change (lstrip s = " "%char :: s) in Hl. exfalso.
  assert (Hlen : (length (lstrip s) <= length s)%nat).
  { clear. induction s as [|x s IH]; [cbn; lia|].
    cbn [lstrip]. destruct (Text.is_space x); cbn [length]; lia. }
  rewrite Hl in Hlen. cbn [length] in Hlen. lia.
Qed.

(** X14: whatever the text, [clean_text] returns only lower-case letters,
    digits, hyphens and blanks, with no two blanks in a row and no blank at
    the start; and cleaning a cleaned text changes nothing. *)
Theorem clean_text_is_tidy (text : string) :
  Forall (fun c => clean_char c = true) (list_ascii_of_string (clean_text text)) /\
  Text.contains "  " (clean_text text) = false /\
  String.prefix " " (clean_text text) = false /\
  clean_text (clean_text text) = clean_text text.
Proof.
  destruct (String.eqb text "") eqn:Et.
  { apply String.eqb_eq in Et. subst text. vm_compute. repeat split; constructor. }
  set (t := blank_others (strip_tags (list_ascii_of_string (Text.lower text)))).
  destruct (squeeze_clean t (blank_others_kept _) false) as [Hsf Hsb].
  destruct (lstrip_clean _ Hsf false Hsb) as (Hlf & Hlb & Hll).
  destruct (rstrip_clean _ Hlf) as (Hrf & Hrb & Hrr & Hrl).
  change (rstrip (lstrip (squeeze false t))) with (strip (squeeze false t)) in *.
  specialize (Hrb false (Hlb false)). specialize (Hrl Hll).
  assert (Hc : clean_text text = string_of_list_ascii (strip (squeeze false t)))
    by (unfold clean_text; rewrite Et; reflexivity).
  rewrite Hc. clear Hc. set (r := strip (squeeze false t)) in *.
  rewrite list_ascii_of_string_of_list_ascii.
  split; [exact Hrf|]. split; [exact (single_blanks_no_double r false Hrb)|].
  split; [exact (lstrip_no_leading_blank r Hrl)|].
  unfold clean_text.
  destruct (String.eqb (string_of_list_ascii r) "") eqn:E;
    [apply String.eqb_eq in E; symmetry; exact E|].
  rewrite (lower_clean r Hrf), list_ascii_of_string_of_list_ascii.
  rewrite (strip_tags_clean r Hrf), (blank_others_clean r Hrf), (squeeze_single r Hrf false Hrb).
  unfold strip at 1. rewrite Hrl, Hrr. reflexivity.
Qed.

End CleanText.

(** ** Education flags and enrichment *)

Section Education.

Import Regex Utils Enrichment EnrichmentProps.

Lemma search_from_finds (r : regex) (c : ascii) (s : list ascii) (m : match_obj) :
  match_here r (Some c) s = Some m ->
  forall pre p, exists m', search_from r p (pre ++ c :: s) = Some m'.
Proof.
  intros Hm. assert (Hs : exists m', search_from r (Some c) s = Some m').
  { destruct s; cbn [search_from]; rewrite Hm; eauto. }
  induction pre as [|x pre IH]; intros p; cbn [app search_from].
  - destruct (match_here r p (c :: s)); eauto.
  - destruct (match_here r p (x :: pre ++ c :: s)); eauto.
Qed.

Lemma lower_app (a b : string) : Text.lower (a +:+ b) = Text.lower a +:+ Text.lower b.
Proof.
  induction a as [|c a IH]; [reflexivity|].
  change (String c a +:+ b) with (String c (a +:+ b)).
  cbn [Text.lower]. rewrite IH. reflexivity.
Qed.

Lemma list_ascii_app (a b : string) :
  list_ascii_of_string (a +:+ b) = list_ascii_of_string a ++ list_ascii_of_string b.
Proof.
  induction a as [|c a IH]; [reflexivity|].
  change (String c a +:+ b) with (String c (a +:+ b)).
  cbn [list_ascii_of_string]. rewrite IH. reflexivity.
Qed.

Lemma found_word (r : regex) (word : string) :
  Text.lower word = word ->
  (forall tl, exists m,
      match_here r (Some " "%char)
        (list_ascii_of_string word ++ " "%char :: tl) = Some m) ->
  forall a b,
    found r (" " +:+ Text.lower (a +:+ " " +:+ word +:+ " " +:+ b) +:+ " ") = true.
Proof.
  intros Hw Hm a b. unfold found, search.
  rewrite !lower_app, !list_ascii_app, Hw.
  change (list_ascii_of_string (Text.lower " ")) with [" "%char].
  change (list_ascii_of_string " ") with [" "%char].
  destruct (Hm (list_ascii_of_string (Text.lower b) ++ [" "%char])) as [m Hmatch].
  destruct (search_from_finds r _ _ m Hmatch
              ([" "%char] ++ list_ascii_of_string (Text.lower a)) None) as [m' Hs].
  repeat rewrite <- app_assoc in *. cbn [app] in *. rewrite Hs. reflexivity.
Qed.

Lemma lookup_degree (text_lower : string) (key : string) (r : regex) :
  In (key, r) degree_patterns ->
  (list_to_map (map (fun kp => (fst kp, found (snd kp) text_lower)) degree_patterns)
   : gmap string bool) !! key
  = Some (found r text_lower).
Proof.
  unfold degree_patterns. cbn [map list_to_map foldr fst snd In].
  intros Hin. repeat destruct Hin as [[= <- <-]|Hin];
    try destruct Hin;
    repeat first [rewrite lookup_insert_eq; reflexivity
                 |rewrite lookup_insert_ne by discriminate].
Qed.

(** X15: a degree word standing between blanks sets its flag, whatever
    the text around it and whatever the case of that text: "bachelor",
    "master", "mba", "phd", "doctorate", "jd", "juris doctor", "llm", "md"
    and "medical doctor". *)
Theorem degree_word_sets_flag :
  Forall (fun wk =>
            forall a b : string,
              check_education_level (a +:+ " " +:+ fst wk +:+ " " +:+ b) !! snd wk
              = Some true)
         degree_words.
Proof.
  assert (Hne : forall a w b : string,
             String.eqb (a +:+ " " +:+ w +:+ " " +:+ b) "" = false).
  { intros a w b. destruct a; reflexivity. }
  unfold degree_words.
  repeat constructor; cbn [fst snd]; intros a b;
    unfold check_education_level; rewrite Hne;
    (erewrite lookup_degree by (unfold degree_patterns; cbn; eauto 10));
    f_equal; apply found_word; try reflexivity;
    intros tl; vm_compute; eexists; reflexivity.
Qed.

End Education.

Section EnrichmentProperties.

Import Utils Enrichment EnrichmentProps SearchEngine Spec.
Context {R : Type}.

Lemma no_degree_lookup (key : string) :
  In key degree_keys -> no_degree !! key = Some false.
Proof.
  unfold degree_keys, no_degree. cbn [list_to_map foldr In].
  intros Hin. repeat destruct Hin as [<-|Hin]; try destruct Hin;
    repeat first [rewrite lookup_insert_eq; reflexivity
                 |rewrite lookup_insert_ne by discriminate].
Qed.

Lemma education_lookup (text key : string) :
  text <> "" -> In key degree_keys -> is_Some (check_education_level text !! key).
Proof.
  intros Hne Hin. unfold check_education_level.
  destruct (String.eqb_spec text ""); [contradiction|].
  unfold degree_keys in Hin. cbn [In] in Hin.
  repeat destruct Hin as [<-|Hin]; try destruct Hin;
    (erewrite lookup_degree by (unfold degree_patterns; cbn; eauto 10)); eauto.
Qed.

Lemma tier_lookup_degree (text key : string) :
  In key degree_keys -> check_university_tier text !! key = None.
Proof.
  intros Hin. unfold check_university_tier.
  destruct (String.eqb text ""); [apply lookup_empty|].
  unfold university_tiers. cbn [map list_to_map foldr fst snd].
  unfold degree_keys in Hin. cbn [In] in Hin.
  repeat destruct Hin as [<-|Hin]; try destruct Hin;
    rewrite !lookup_insert_ne by discriminate; apply lookup_empty.
Qed.

Lemma no_degree_other (key : string) :
  ~ In key degree_keys -> no_degree !! key = None.
Proof.
  intros Hn. unfold no_degree. apply not_elem_of_list_to_map_1.
  rewrite list_elem_of_In. exact Hn.
Qed.

Lemma education_other (text key : string) :
  ~ In key degree_keys -> check_education_level text !! key = None.
Proof.
  intros Hn. unfold check_education_level.
  destruct (String.eqb text ""); [apply lookup_empty|].
  apply not_elem_of_list_to_map_1. rewrite list_elem_of_In. exact Hn.
Qed.

Lemma tier_other (text key : string) :
  ~ In key tier_keys -> check_university_tier text !! key = None.
Proof.
  intros Hn. unfold check_university_tier.
  destruct (String.eqb text ""); [apply lookup_empty|].
  apply not_elem_of_list_to_map_1. rewrite list_elem_of_In. exact Hn.
Qed.

Lemma tier_lookup (text key : string) :
  text <> "" -> In key tier_keys -> is_Some (check_university_tier text !! key).
Proof.
  intros Hne Hin. unfold check_university_tier.
  destruct (String.eqb_spec text ""); [contradiction|].
  unfold university_tiers. cbn [map list_to_map foldr fst snd].
  unfold tier_keys in Hin. cbn [In] in Hin.
  repeat destruct Hin as [<-|Hin]; try destruct Hin;
    repeat first [rewrite lookup_insert_eq; eauto
                 |rewrite lookup_insert_ne by discriminate].
Qed.

(** X16: enrichment leaves the identifier, the name, the texts and the
    retrieval score of a candidate as they are, and every key of the record
    other than the six degree flags and the two university tiers; it always
    sets the years of experience, between 0 and 50, and each of the six
    degree flags. For a candidate with a text the years, the degree flags
    and the tiers are the ones computed from the text, whatever the
    retrieved record held under those keys; a candidate with neither full
    text nor summary gets 0 years and no degree. *)
Theorem enrichment_sets_the_derived_fields (c : Candidate R) (current_year : Z) :
  let c' := parse_candidate_comprehensive c current_year in
  let text := str_or (get (full_text c) "") (get (rerank_summary c) "") in
  (cand_id c' = cand_id c /\ cand_name c' = cand_name c /\
   full_text c' = full_text c /\ rerank_summary c' = rerank_summary c /\
   rrf_score c' = rrf_score c) /\
  (exists years, years_experience c' = Some years /\ 0 <= years <= 50) /\
  Forall (fun key => is_Some (flags c' !! key)) degree_keys /\
  (text = "" ->
   years_experience c' = Some 0 /\
   Forall (fun key => flag c' key = false) degree_keys) /\
  (text <> "" ->
   years_experience c' = Some (extract_years_experience text current_year) /\
   Forall (fun key => flags c' !! key = check_education_level text !! key) degree_keys /\
   Forall (fun key => flags c' !! key = check_university_tier text !! key) tier_keys) /\
  (forall key, ~ In key degree_keys -> ~ In key tier_keys ->
               flags c' !! key = flags c !! key).
Proof.
  intros c' text. unfold c', parse_candidate_comprehensive. fold text.
  destruct (String.eqb_spec text "") as [E|Hne]; cbn [cand_id cand_name full_text
    rerank_summary rrf_score years_experience flags].
  - split; [repeat split|]. split; [exists 0; split; [reflexivity|lia]|].
    split; [|split; [|split]].
    + apply List.Forall_forall. intros key Hk.
      rewrite lookup_union, (no_degree_lookup key Hk).
      destruct (flags c !! key); cbn; eauto.
    + intros _. split; [reflexivity|].
      apply List.Forall_forall. intros key Hk. unfold flag. cbn [flags].
      rewrite lookup_union, (no_degree_lookup key Hk).
      destruct (flags c !! key); reflexivity.
    + intros Hne. contradiction.
    + intros key Hd _. rewrite lookup_union, (no_degree_other key Hd).
      destruct (flags c !! key); reflexivity.
  - split; [repeat split|]. split; [|split; [|split; [|split]]].
    + eexists. split; [reflexivity|]. apply extract_years_bounds.
    + apply List.Forall_forall. intros key Hk.
      rewrite !lookup_union, (tier_lookup_degree text key Hk).
      destruct (education_lookup text key Hne Hk) as [v Hv]. rewrite Hv.
      destruct (flags c !! key); cbn; eauto.
    + intros E. contradiction.
    + intros _. split; [reflexivity|]. split.
      * apply List.Forall_forall. intros key Hk.
        rewrite !lookup_union, (tier_lookup_degree text key Hk).
        destruct (education_lookup text key Hne Hk) as [v Hv]. rewrite Hv.
        destruct (flags c !! key); reflexivity.
      * apply List.Forall_forall. intros key Hk.
        rewrite lookup_union.
        destruct (tier_lookup text key Hne Hk) as [v Hv]. rewrite Hv.
        destruct ((check_education_level text ∪ flags c) !! key); reflexivity.
    + intros key Hd Ht.
      rewrite !lookup_union, (tier_other text key Ht), (education_other text key Hd).
      destruct (flags c !! key); reflexivity.
Qed.

End EnrichmentProperties.

(** ** The search as a whole *)

Section Search.

Import Utils FilterLog SearchEngine Spec Enrichment Pipeline.
Local Open Scope Q_scope.

Lemma soft_score_equation (c : Candidate Q) (sc : SoftCriteria Q) :
  (get (years_experience c) 0 <= 50)%Z ->
  preferred_experience sc = None ->
  calculate_soft_score c (Some sc)
  == fold_right add (lit 0)
       (map (factor_credit sc (text_blob c)) (get (weight_factors sc) []))
     + keyword_bonus sc (text_blob c).
Proof.
  intros Hyears Hnone. unfold calculate_soft_score.
  destruct (soft_falsy (Some sc)) eqn:Ef.
  - unfold soft_falsy in Ef. rewrite Hnone in Ef. unfold keyword_bonus, any_keyword.
    destruct (weight_factors sc); [discriminate|].
    apply bool_decide_eq_true in Ef. rewrite Ef, lookup_empty. cbn. reflexivity.
  - rewrite Hnone. unfold get in *. cbn [default from_option id].
    rewrite Z.geb_leb.
    destruct (Z.leb_spec 99 (default 0%Z (years_experience c))); [lia|].
    unfold keyword_bonus.
    destruct (any_keyword sc "preferred_keywords" (text_blob c));
      q_ops; rewrite soft_loop_sum; q_ops; ring.
Qed.

(** X17: for a candidate as enrichment leaves it, the soft score under
    criteria without [preferred_experience] is the credits of the factors
    plus the keyword bonus: the experience bonus is never added. *)
Theorem enriched_candidate_gets_no_default_bonus (c : Candidate Q)
  (current_year : Z) (sc : SoftCriteria Q) :
  preferred_experience sc = None ->
  let c' := parse_candidate_comprehensive c current_year in
  calculate_soft_score c' (Some sc)
  == fold_right add (lit 0)
       (map (factor_credit sc (text_blob c')) (get (weight_factors sc) []))
     + keyword_bonus sc (text_blob c').
Proof.
  intros Hnone c'. apply soft_score_equation; [|exact Hnone].
  unfold c', parse_candidate_comprehensive.
  destruct (String.eqb _ ""); cbn [years_experience get default from_option id]; [lia|].
  apply extract_years_bounds.
Qed.

Lemma enriched_candidate_gets_no_default_bonus_witness :
  calculate_soft_score
    (parse_candidate_comprehensive (R:=Q) Examples.a_once 2025) (Some Examples.ab_criteria)
  == 3.
Proof.
  rewrite (enriched_candidate_gets_no_default_bonus Examples.a_once 2025
             Examples.ab_criteria eq_refl).
  vm_compute. reflexivity.
Defined.

(** X18: when the search has no candidate to work on (no embedding of the
    query, an empty one, a retriever that fails or that returns no row) it
    returns no identifier and leaves the logger as it is: no session is
    recorded. *)
Theorem search_without_candidates (filter_logger : FilterLogger) (query : string)
  (job_config : JobConfig Q) (top_k : Z) (query_vector : option (list Q))
  (response : option (list (Row Q))) (current_year : Z) (now : string)
  (w : write_outcome) :
  query_vector = None \/ query_vector = Some [] \/ response = None \/ response = Some [] ->
  search filter_logger query job_config top_k
         (enhanced_hybrid_search query_vector response) current_year now w
  = ([], filter_logger).
Proof.
  intros [-> | [-> | [-> | ->]]]; try reflexivity;
    destruct query_vector as [[|x v]|]; reflexivity.
Qed.

Lemma search_without_candidates_witness :
  search (R:=Q) (init NoFile) "tax attorney"
    {| job_name := Some "Tax Lawyer"; hard_criteria := Examples.min_three;
       soft_criteria := None |}
    10 (enhanced_hybrid_search None (Some [])) 2025 "t0" Written
  = ([], init NoFile).
Proof.
  apply search_without_candidates. left. reflexivity.
Defined.

Lemma parse_candidate_id {R} (c : Candidate R) (current_year : Z) :
  cand_id (parse_candidate_comprehensive c current_year) = cand_id c.
Proof.
  unfold parse_candidate_comprehensive. destruct (String.eqb _ ""); reflexivity.
Qed.

(** X19: a search with candidates records exactly one session, after the
    sessions already kept and even when nobody survives, with the number of
    candidates retrieved, the number of survivors of the hard filters on the
    enriched candidates and no failure; it returns the first identifiers of
    the ranking of the survivors, each one the identifier of a retrieved
    candidate, and never more of them than there are survivors. *)
Theorem search_with_candidates (filter_logger : FilterLogger) (query : string)
  (job_config : JobConfig Q) (top_k : Z) (c0 : Candidate Q)
  (others : list (Candidate Q)) (current_year : Z) (now : string) (w : write_outcome) :
  let candidates_raw := c0 :: others in
  let survivors :=
    apply_hard_filters
      (map (fun c => parse_candidate_comprehensive c current_year) candidates_raw)
      (hard_criteria job_config) in
  let result :=
    search filter_logger query job_config top_k candidates_raw current_year now w in
  current_session (snd result) = None /\
  all_sessions (snd result)
  = all_sessions filter_logger ++
    [{| job_config_name := get (job_name job_config) "N/A";
        FilterLog.query := query;
        total_candidates := len candidates_raw;
        candidates_after_filtering := len survivors;
        filter_failures := [];
        session_timestamp := now |}] /\
  fst result = rank_stage survivors (soft_criteria job_config) top_k /\
  incl (fst result) (map cand_id candidates_raw) /\
  (length (fst result) <= length survivors)%nat.
Proof.
  intros candidates_raw survivors result.
  assert (Hres : result
                 = (rank_stage survivors (soft_criteria job_config) top_k,
                    end_session
                      (start_session filter_logger (get (job_name job_config) "N/A") query
                         (len (map (fun c => parse_candidate_comprehensive c current_year)
                                   candidates_raw)) now)
                      (len survivors) w)) by reflexivity.
  rewrite Hres. cbn [fst snd].
  split; [reflexivity|]. split.
  - unfold end_session, start_session, save_to_file, len. cbn. rewrite length_map.
    destruct w; reflexivity.
  - split; [reflexivity|]. split.
    + intros i Hi.
      destruct (rank_stage_prefix survivors (soft_criteria job_config) top_k) as [n Hn].
      rewrite Hn in Hi. apply in_firstn in Hi.
      rewrite <- (map_map fst cand_id) in Hi.
      apply (Permutation_in _ (Permutation_map cand_id
                                 (Permutation_sym (ranked_candidates survivors _)))) in Hi.
      apply in_map_iff in Hi as (c & <- & Hc).
      unfold survivors in Hc. rewrite apply_hard_filters_kept in Hc.
      apply filter_In in Hc as [Hc _].
      apply in_map_iff in Hc as (c' & <- & Hc').
      rewrite parse_candidate_id. apply in_map, Hc'.
    + destruct (rank_stage_prefix survivors (soft_criteria job_config) top_k) as [n ->].
      rewrite length_firstn, length_map, ranked_length. lia.
Qed.

End Search.

(** ** Statistics and report: further properties *)

Section StatsProperties.

Import FilterLog Spec Pipeline PipelineProps.

Lemma map_sum_insert {A} (g : A -> Z) (m : gmap string A) (k : string) (v : A) :
  map_sum g (<[k := v]> m) = g v + map_sum g m - default 0 (g <$> m !! k).
Proof.
  unfold map_sum.
  assert (Hcomm : forall (m' : gmap string A) (j1 j2 : string) (z1 z2 : A) (y : Z),
             j1 <> j2 -> m' !! j1 = Some z1 -> m' !! j2 = Some z2 ->
             g z1 + (g z2 + y) = g z2 + (g z1 + y)) by (intros; lia).
  destruct (m !! k) as [x|] eqn:E.
  - rewrite (map_fold_delete_L _ _ k x m (Hcomm m) E).
    rewrite <- (insert_delete_eq m k v).
    rewrite (map_fold_insert_L _ _ k v (delete k m) (Hcomm _) (lookup_delete_eq m k)).
    cbn. lia.
  - rewrite (map_fold_insert_L _ _ k v m (Hcomm _) E). cbn. lia.
Qed.

Lemma map_sum_empty {A} (g : A -> Z) : map_sum g (∅ : gmap string A) = 0.
Proof. apply map_fold_empty. Qed.

Lemma count_failure_total (fb : gmap string Z) (f : FilterFailure) :
  map_sum id (count_failure fb f) = map_sum id fb + 1.
Proof.
  unfold count_failure. destruct (fb !! filter_key f) as [x|] eqn:E.
  - rewrite E, map_sum_insert, E. cbn. lia.
  - rewrite lookup_insert_eq, !map_sum_insert, lookup_insert_eq, E. cbn. lia.
Qed.

Lemma breakdown_total (sessions : list FilterSession) :
  forall fb : gmap string Z,
    map_sum id (fold_left (fun fb session =>
                             fold_left count_failure (filter_failures session) fb)
                  sessions fb)
    = map_sum id fb + len (all_failures sessions).
Proof.
  assert (Hfs : forall (fs : list FilterFailure) (fb : gmap string Z),
             map_sum id (fold_left count_failure fs fb) = map_sum id fb + len fs).
  { unfold len. induction fs as [|f fs IH]; intros fb; [cbn; lia|].
    cbn [fold_left length]. rewrite IH, count_failure_total. lia. }
  unfold all_failures, len in *.
  induction sessions as [|s l IH]; intros fb; [cbn; lia|].
  cbn [fold_left map concat]. rewrite IH, Hfs, length_app. lia.
Qed.

Lemma add_session_insert (jp : gmap string (JobPerformance Q)) (s : FilterSession) :
  add_session jp s
  = <[job_config_name s := accumulate (default fresh_entry (jp !! job_config_name s)) s]> jp.
Proof.
  apply map_eq. intros job. rewrite add_session_lookup.
  destruct (String.eqb_spec (job_config_name s) job) as [<-|Hne].
  - rewrite lookup_insert_eq. reflexivity.
  - rewrite lookup_insert_ne by exact Hne. reflexivity.
Qed.

Lemma job_totals_sum (g : JobPerformance Q -> Z) (h : FilterSession -> Z)
  (sessions : list FilterSession) :
  g fresh_entry = 0 ->
  (forall jp s, g (accumulate jp s) = g jp + h s) ->
  forall jp : gmap string (JobPerformance Q),
    map_sum g (fold_left add_session sessions jp) = map_sum g jp + sum_of h sessions.
Proof.
  intros Hfresh Hacc.
  induction sessions as [|s l IH]; intros jp; [cbn; lia|].
  change (sum_of h (s :: l)) with (h s + sum_of h l).
  cbn [fold_left]. rewrite IH, add_session_insert, map_sum_insert, Hacc.
  destruct (jp !! job_config_name s); cbn; lia.
Qed.

Lemma set_filter_rate_counts (jp : JobPerformance Q) :
  jp_total_candidates (set_filter_rate jp) = jp_total_candidates jp /\
  jp_filtered_candidates (set_filter_rate jp) = jp_filtered_candidates jp /\
  jp_failure_count (set_filter_rate jp) = jp_failure_count jp.
Proof. unfold set_filter_rate. destruct (_ >? 0); repeat split; reflexivity. Qed.

(** X20: the statistics add up: the counts of the failure breakdown sum
    to the total of filter failures, and over the job configurations the
    candidates, the candidates passed and the failures sum to the overall
    totals. *)
Theorem filter_stats_add_up (self : FilterLogger) (stats : FilterStats Q) :
  get_filter_stats self = Some stats ->
  map_sum id (failure_breakdown stats) = total_filter_failures (overall_stats stats) /\
  map_sum jp_total_candidates (job_performance stats)
  = total_candidates_processed (overall_stats stats) /\
  map_sum jp_filtered_candidates (job_performance stats)
  = total_candidates_passed (overall_stats stats) /\
  map_sum jp_failure_count (job_performance stats)
  = total_filter_failures (overall_stats stats).
Proof.
  unfold get_filter_stats. destruct (all_sessions self) as [|s0 rest] eqn:E; [discriminate|].
  rewrite <- E. clear E s0 rest. intros [= <-].
  cbn [overall_stats failure_breakdown job_performance total_filter_failures
         total_candidates_processed total_candidates_passed].
  rewrite !py_sum_sum_of. unfold map_sum at 2 3 4. rewrite !map_fold_fmap.
  split; [rewrite breakdown_total, map_sum_empty, sum_of_len_failures; lia|].
  repeat split.
  - apply (job_totals_sum (fun jp => jp_total_candidates (set_filter_rate jp))
             total_candidates (all_sessions self)); [reflexivity|].
    intros jp s.
    destruct (set_filter_rate_counts jp) as (H1 & H2 & H3).
    destruct (set_filter_rate_counts (accumulate jp s)) as (H1' & H2' & H3').
    rewrite ?H1, ?H2, ?H3, ?H1', ?H2', ?H3'. reflexivity.
  - apply (job_totals_sum (fun jp => jp_filtered_candidates (set_filter_rate jp))
             candidates_after_filtering (all_sessions self)); [reflexivity|].
    intros jp s.
    destruct (set_filter_rate_counts jp) as (H1 & H2 & H3).
    destruct (set_filter_rate_counts (accumulate jp s)) as (H1' & H2' & H3').
    rewrite ?H1, ?H2, ?H3, ?H1', ?H2', ?H3'. reflexivity.
  - apply (job_totals_sum (fun jp => jp_failure_count (set_filter_rate jp))
             (fun s => len (filter_failures s)) (all_sessions self)); [reflexivity|].
    intros jp s.
    destruct (set_filter_rate_counts jp) as (H1 & H2 & H3).
    destruct (set_filter_rate_counts (accumulate jp s)) as (H1' & H2' & H3').
    rewrite ?H1, ?H2, ?H3, ?H1', ?H2', ?H3'. reflexivity.
Qed.

Lemma filter_stats_add_up_witness :
  exists stats : FilterStats Q,
    get_filter_stats Examples.two_sessions = Some stats /\
    map_sum jp_total_candidates (job_performance stats) = 150.
Proof.
  eexists. split; [reflexivity|].
  refine (eq_trans (proj1 (proj2 (filter_stats_add_up Examples.two_sessions _ eq_refl))) _).
  reflexivity.
Defined.

End StatsProperties.

Section ReportProperties.

Import FilterLog Spec Pipeline PipelineProps.
Local Open Scope Q_scope.

Lemma rate_above_80 (t f : Z) :
  (0 < t)%Z -> num_ltb (lit 0.8) (filter_rate t f) = (5 * f <? t)%Z.
Proof.
  intros Ht. unfold filter_rate. destruct (Z.gtb_spec t 0); [|lia].
  cbn [num_ltb lit Q_Number].
  destruct t as [|p|p]; try lia.
  destruct (Z.ltb_spec (5 * f) (Z.pos p)) as [Hlt|Hge].
  - apply negb_true_iff. destruct (Qle_bool _ _) eqn:E; [|reflexivity].
    apply Qle_bool_iff in E. unfold Qle, Qdiv, Qmult, Qinv, inject_Z in E. cbn in E. lia.
  - apply negb_false_iff. apply Qle_bool_iff.
    unfold Qle, Qdiv, Qmult, Qinv, inject_Z. cbn. lia.
Qed.

Lemma rate_below_10 (t f : Z) :
  (0 < t)%Z -> num_ltb (filter_rate t f) (lit 0.1) = (10 * (t - f) <? t)%Z.
Proof.
  intros Ht. unfold filter_rate. destruct (Z.gtb_spec t 0); [|lia].
  cbn [num_ltb lit Q_Number].
  destruct t as [|p|p]; try lia.
  destruct (Z.ltb_spec (10 * (Z.pos p - f)) (Z.pos p)) as [Hlt|Hge].
  - apply negb_true_iff. destruct (Qle_bool _ _) eqn:E; [|reflexivity].
    apply Qle_bool_iff in E. unfold Qle, Qdiv, Qmult, Qinv, inject_Z in E. cbn in E. lia.
  - apply negb_false_iff. apply Qle_bool_iff.
    unfold Qle, Qdiv, Qmult, Qinv, inject_Z. cbn. lia.
Qed.

Lemma recommend_verdict (job : string) (js : list FilterSession) :
  (fun r => (rec_job_config r, issue r)) <$> recommend job (job_totals js)
  = (fun i => (job, i)) <$> verdict (sum_of total_candidates js)
                              (sum_of candidates_after_filtering js).
Proof.
  unfold recommend, verdict, job_totals. cbn [jp_filter_rate].
  set (t := sum_of total_candidates js). set (f := sum_of candidates_after_filtering js).
  destruct (Z.ltb_spec 0 t) as [Ht|Ht].
  - rewrite (rate_above_80 t f Ht), (rate_below_10 t f Ht).
    destruct (Z.leb_spec t 0); [lia|]. cbn [andb orb].
    destruct (5 * f <? t)%Z; [reflexivity|].
    destruct (10 * (t - f) <? t)%Z; reflexivity.
  - unfold filter_rate. destruct (Z.gtb_spec t 0); [lia|].
    destruct (Z.leb_spec t 0); [|lia]. reflexivity.
Qed.

Lemma omap_cons {A B} (f : A -> option B) (x : A) (l : list A) :
  omap f (x :: l) = match f x with Some y => y :: omap f l | None => omap f l end.
Proof. reflexivity. Qed.

Lemma first_seen_subset (keys : list string) :
  forall seen k, In k (first_seen seen keys) -> In k keys.
Proof.
  induction keys as [|x keys IH]; intros seen k Hk; [destruct Hk|].
  cbn [first_seen] in Hk. destruct (bool_decide (x ∈ seen)).
  - right. exact (IH _ _ Hk).
  - destruct Hk as [<-|Hk]; [left; reflexivity|right; exact (IH _ _ Hk)].
Qed.

Lemma sessions_of_named (job : string) (sessions : list FilterSession) :
  In job (map job_config_name sessions) -> sessions_of job sessions <> [].
Proof.
  intros Hin. apply in_map_iff in Hin as (s & <- & Hs).
  intros E. assert (Hs' : In s (sessions_of (job_config_name s) sessions)).
  { apply filter_In. split; [exact Hs|apply String.eqb_refl]. }
  rewrite E in Hs'. destruct Hs'.
Qed.

(** X21: the report gives the jobs in the order of their first session,
    and for a job of [total] candidates of which [passed] passed the hard
    filters: "High filter rate" exactly when it has candidates and
    [5 * passed < total] (over 80% filtered out), otherwise "Low filter rate"
    exactly when [10 * (total - passed) < total] (under 10% filtered out) or
    when it has no candidate, otherwise nothing. *)
Theorem report_recommendations (self : FilterLogger) (stats : FilterStats Q) :
  get_filter_stats self = Some stats ->
  exists report : Report,
    generate_filter_report self = Some report /\
    executive_summary report = overall_stats stats /\
    map (fun r => (rec_job_config r, issue r)) (recommendations report)
    = omap (fun job =>
              (fun i => (job, i))
                <$> verdict
                      (sum_of total_candidates (sessions_of job (all_sessions self)))
                      (sum_of candidates_after_filtering
                         (sessions_of job (all_sessions self))))
           (first_seen [] (map job_config_name (all_sessions self))).
Proof.
  intros Hstats. unfold generate_filter_report. rewrite Hstats.
  eexists. split; [reflexivity|]. split; [reflexivity|].
  cbn [recommendations]. unfold job_items.
  assert (Hjobs : forall job, In job (map job_config_name (all_sessions self)) ->
                              job_performance stats !! job
                              = Some (job_totals (sessions_of job (all_sessions self)))).
  { intros job Hjob. unfold get_filter_stats in Hstats.
    destruct (all_sessions self) as [|s0 rest] eqn:E; [discriminate|].
    rewrite <- E in *. injection Hstats as <-. cbn [job_performance].
    rewrite lookup_fmap, add_sessions_lookup, lookup_empty.
    pose proof (sessions_of_named job _ Hjob) as Hne.
    destruct (sessions_of job (all_sessions self)) as [|j js]; [contradiction|].
    cbn [fmap option_fmap option_map default]. f_equal.
    apply set_filter_rate_totals. }
  pose proof (first_seen_subset (map job_config_name (all_sessions self)) []) as Hsub.
  induction (first_seen [] (map job_config_name (all_sessions self))) as [|job jobs IH];
    [reflexivity|].
  specialize (IH (fun k Hk => Hsub k (or_intror Hk))).
  rewrite !omap_cons, (Hjobs job) by (apply Hsub; left; reflexivity).
  cbn [fmap option_fmap option_map]. rewrite omap_cons. cbn [fst snd].
  pose proof (recommend_verdict job (sessions_of job (all_sessions self))) as Hv.
  destruct (recommend job _) as [r|], (verdict _ _) as [i|]; try discriminate Hv.
  - cbn [map]. rewrite IH. injection Hv as -> ->. reflexivity.
  - exact IH.
Qed.

Lemma report_recommendations_witness :
  exists report : Report,
    generate_filter_report Examples.two_sessions = Some report /\
    map (fun r => (rec_job_config r, issue r)) (recommendations report) = [].
Proof.
  destruct (report_recommendations Examples.two_sessions _ eq_refl)
    as (report & Hr & _ & Hrec).
  exists report. split; [exact Hr|]. rewrite Hrec. vm_compute. reflexivity.
Defined.

End ReportProperties.

(** ** Validation of the final submission ([final_submission.py]) *)

Section SubmissionProperties.

Import Submission.

Lemma check_candidates_spec (candidates : list string) :
  check_candidates candidates = true <->
  Forall (fun candidate_id => (10 <= String.length candidate_id)%nat) candidates.
Proof.
  induction candidates as [|i l IH]; [split; [constructor|reflexivity]|].
  cbn [check_candidates]. unfold invalid_id.
  destruct (String.eqb_spec i "") as [->|Hne]; cbn [orb].
  - split; [discriminate|]. intros H. inversion H; subst. cbn in *. lia.
  - destruct (Nat.ltb_spec (String.length i) 10).
    + split; [discriminate|]. intros H'. inversion H'; subst. lia.
    + rewrite IH. split; [constructor; assumption|].
      intros H'. inversion H'; assumption.
Qed.

(** X22: a submission is valid exactly when every identifier of every
    configuration has at least 10 characters; nothing else is required, so
    that a submission with configurations missing, with lists shorter than
    asked for or with no identifier at all is valid too. *)
Theorem validate_final_submission_spec (candidate_data : list (string * list string)) :
  (validate_final_submission candidate_data = true <->
   Forall (fun item =>
             Forall (fun candidate_id => (10 <= String.length candidate_id)%nat)
                    (snd item))
          candidate_data) /\
  validate_final_submission [] = true /\
  validate_final_submission (map (fun item => (fst item, [])) candidate_data) = true.
Proof.
  split; [|split; [reflexivity|]].
  - induction candidate_data as [|[cfg ids] l IH]; [split; [constructor|reflexivity]|].
    cbn [validate_final_submission]. destruct (check_candidates ids) eqn:E.
    + rewrite IH. apply check_candidates_spec in E.
      split; [constructor; assumption|]. intros H. inversion H; assumption.
    + split; [discriminate|]. intros H. inversion H as [|? ? Hids _]; subst.
      apply check_candidates_spec in Hids. cbn in Hids. congruence.
  - induction candidate_data as [|[cfg ids] l IH]; [reflexivity|]. exact IH.
Qed.

End SubmissionProperties.

Section Persistence.

Import FilterLog Spec.

(** X24: a write that fails loses nothing in memory: the sessions kept
    after [end_session] are the same whether the write goes through or not;
    but a [load_from_file] after a failed write replaces them by what the
    file was left with: nothing when it cannot be read. *)
Theorem failed_write_then_reload (self : FilterLogger) (survivors : Z)
  (left_behind : file_state) :
  all_sessions (end_session self survivors (WriteFailed left_behind))
  = all_sessions (end_session self survivors Written) /\
  (current_session self <> None ->
   all_sessions (load_from_file (end_session self survivors (WriteFailed Unreadable)))
   = [] /\
   forall older,
     all_sessions (load_from_file
                     (end_session self survivors (WriteFailed (FileWith older))))
     = older).
Proof.
  unfold end_session. destruct (current_session self) as [s|]; [|split; [reflexivity|]].
  - split; [reflexivity|]. intros _. split; [reflexivity|]. intros older. reflexivity.
  - intros H. contradiction.
Qed.

Lemma failed_write_then_reload_witness :
  all_sessions
    (load_from_file
       (end_session (start_session (init NoFile) "Tax Lawyer" "tax" 3 "t0") 1
          (WriteFailed Unreadable)))
  = [].
Proof.
  refine (proj1 (proj2 (failed_write_then_reload
                          (start_session (init NoFile) "Tax Lawyer" "tax" 3 "t0") 1
                          Unreadable) _)).
  discriminate.
Defined.

End Persistence.
